(** * Verification of the grsai.com command-line clients

    Shallow embedding of the asynchronous video client
    ([veo3-1/scripts/generate_video.py], its older copy
    [veo3.1/scripts/generate_video.py]) and of the retry wrapper of the
    chat client ([query_gemini.py] of the plugin), followed by the
    properties proved about them.

    Modelling conventions.
    - A Python [str] is a [string]; each character is read as a code
      point below 256, and [lower] / [strip] follow Python on that range.
    - A value produced by [json.loads] is a [json] tree; a Python dict is
      the list of its items in insertion order (keys are distinct).
    - Exceptions are values of [exn]; a computation returns [Ret] or
      [Raise].
    - The clock, the network and the standard output are explicit: a
      computation maps a [world] to an outcome, the next world and the
      list of effects it performed ([print], [time.sleep], [urlopen]).
    - [repr] of a JSON value is not modelled: it is a section variable
      [py_repr], so every statement holds for any rendering. *)

From Stdlib Require Import ZArith List String Ascii Bool Lia Arith.
From Stdlib Require Import PrimFloat DecimalString.
From Equations Require Import Equations.
From stdpp Require gmap strings.
Import ListNotations.
Open Scope string_scope.
Open Scope Z_scope.
Open Scope list_scope.

(** String concatenation, Python's [+] on [str] and the joints of an
    f-string. *)
Infix "+:+" := String.append (at level 60, right associativity).

(** ** Python strings *)

Module PyStr.

(** [str.lower] on one character of the range 0..255: the ASCII capitals
    and the Latin-1 capitals U+00C0..U+00DE (but not the multiplication
    sign U+00D7) move up by 32. *)
Definition lower_char (c : ascii) : ascii :=
  let n := nat_of_ascii c in
  if ((65 <=? n) && (n <=? 90))%nat
     || ((192 <=? n) && (n <=? 222) && negb (n =? 215))%nat
  then ascii_of_nat (n + 32) else c.

Fixpoint lower (s : string) : string :=
  match s with
  | EmptyString => EmptyString
  | String c s' => String (lower_char c) (lower s')
  end.

(** [kw in s]: [kw] occurs in [s] as a contiguous substring. *)
Fixpoint contains (kw s : string) : bool :=
  String.prefix kw s ||
  match s with
  | EmptyString => false
  | String _ s' => contains kw s'
  end.

(** [str.isspace] on one character of the range 0..255. *)
Definition is_space (c : ascii) : bool :=
  let n := nat_of_ascii c in
  ((9 <=? n) && (n <=? 13) || (28 <=? n) && (n <=? 32)
   || (n =? 133) || (n =? 160))%nat.

Fixpoint lstrip (s : string) : string :=
  match s with
  | EmptyString => EmptyString
  | String c s' => if is_space c then lstrip s' else s
  end.

Fixpoint rstrip (s : string) : string :=
  match s with
  | EmptyString => EmptyString
  | String c s' =>
      match rstrip s' with
      | EmptyString => if is_space c then EmptyString else String c EmptyString
      | r => String c r
      end
  end.

(** [s.strip()] *)
Definition strip (s : string) : string := rstrip (lstrip s).

(** [str(n)] for an [int]. *)
Definition of_Z (z : Z) : string := NilZero.string_of_int (Z.to_int z).

(** truthiness of a string: [bool(s)] *)
Definition nonempty (s : string) : bool :=
  match s with EmptyString => false | _ => true end.

End PyStr.

(** ** JSON values, as [json.loads] returns them *)

Inductive json : Type :=
| JNull
| JBool (b : bool)
| JInt (z : Z)
| JFloat (f : float)
| JStr (s : string)
| JArr (items : list json)
| JObj (items : list (string * json)).

Module Py.

Fixpoint assoc (k : string) (items : list (string * json)) : option json :=
  match items with
  | [] => None
  | (k', v) :: rest => if String.eqb k k' then Some v else assoc k rest
  end.

(** [bool(v)] *)
Definition truthy (v : json) : bool :=
  match v with
  | JNull => false
  | JBool b => b
  | JInt z => negb (z =? 0)
  | JFloat f => negb (PrimFloat.eqb f 0%float)
  | JStr s => PyStr.nonempty s
  | JArr items => match items with [] => false | _ => true end
  | JObj items => match items with [] => false | _ => true end
  end.

(** [v == 0]: numbers and booleans compare by value, anything else is
    different from [0]. *)
Definition eq_zero (v : json) : bool :=
  match v with
  | JBool b => negb b
  | JInt z => z =? 0
  | JFloat f => PrimFloat.eqb f 0%float
  | _ => false
  end.

(** [v == s] for a string literal [s]. *)
Definition eq_str (v : json) (s : string) : bool :=
  match v with
  | JStr s' => String.eqb s' s
  | _ => false
  end.

End Py.

(** ** Exceptions *)

(** [TransientError] is the subclass of [RuntimeError] that
    [query_gemini.py] declares.  [OtherError] stands for every exception
    that is neither a [RuntimeError] nor a [TimeoutError] ([KeyError],
    [TypeError], [AttributeError], [ValueError], [OSError] ...); the
    string names its class. *)
Inductive exn : Type :=
| RuntimeError (msg : string)
| TransientError (msg : string)
| TimeoutError (msg : string)
| OtherError (cls : string).

Inductive res (A : Type) : Type :=
| Ret (a : A)
| Raise (e : exn).
Arguments Ret {A} a.
Arguments Raise {A} e.

(** ** The world: clock, network, output *)

(** What one [urllib.request.urlopen] call followed by reading and
    decoding the body does. *)
Inductive net_outcome : Type :=
| NetBody (v : json)                       (* body read, [json.loads] gave [v] *)
| NetHTTPError (code : Z) (body_text : string)  (* [urllib.error.HTTPError] *)
| NetURLError (reason : string)            (* [urllib.error.URLError], [str(e.reason)] *)
| NetTimeout (msg : string)                (* [TimeoutError], [str(e)] *)
| NetOther (cls : string).                 (* any other exception *)

Record net_reply : Type := Reply {
  latency : N;              (* ticks of the clock the call takes *)
  outcome : net_outcome
}.

(** [time.time()] is a float: the clock counts ticks, [hz] of them to
    the second, where [hz] is any positive number; a request may take
    any number of ticks, a sleep of [s] seconds takes [s * hz].  Time
    passes in requests and in sleeps only. *)
Record world : Type := World {
  now : Z;                      (* [time.time()], in ticks *)
  calls : nat;                  (* number of [urlopen] calls made so far *)
  net : nat -> net_reply;       (* what the i-th call will meet *)
  hz : positive                 (* ticks per second *)
}.

(** Lines written by [print]; each constructor is one [print] call of the
    sources, with the values its f-string interpolates. *)
Inductive line : Type :=
| Submitting (model : json) (attempt max_retries : Z)
| TaskCreated (model task_id : json)
| Progress (progress status : json)
| AttemptTimedOut (attempt : Z) (msg : string)
| AttemptFailed (attempt : Z) (msg : string)
| PermanentStop (msg : string)
| Retrying (delay : Z)
| WillRetry (attempt delay : Z) (msg : string).

(** The two [time.sleep] call sites of the video client, and the one of
    the chat client. *)
Inductive sleep_site : Type := PollSleep | BackoffSleep.

Inductive event : Type :=
| EvPost (url : string) (data : json)
| EvSleep (site : sleep_site) (seconds : Z)
| EvPrint (l : line).

Definition trace : Type := list event.

(** ** Computations *)

Definition M (A : Type) : Type := world -> res A * world * trace.

Definition ret {A} (a : A) : M A := fun w => (Ret a, w, []).
Definition raise {A} (e : exn) : M A := fun w => (Raise e, w, []).

Definition bind {A B} (m : M A) (k : A -> M B) : M B := fun w =>
  match m w with
  | (Ret a, w1, t1) =>
      match k a w1 with
      | (r, w2, t2) => (r, w2, t1 ++ t2)
      end
  | (Raise e, w1, t1) => (Raise e, w1, t1)
  end.

(** [try: m except ... : h] where the handler [h] decides, per exception,
    what to do; an exception that no clause catches is raised again by
    [h]. *)
Definition try_except {A} (m : M A) (h : exn -> M A) : M A := fun w =>
  match m w with
  | (Ret a, w1, t1) => (Ret a, w1, t1)
  | (Raise e, w1, t1) =>
      match h e w1 with
      | (r, w2, t2) => (r, w2, t1 ++ t2)
      end
  end.

Notation "x <- m ;; k" := (bind m (fun x => k))
  (at level 62, m at next level, right associativity).
Notation "m ;;; k" := (bind m (fun _ => k))
  (at level 62, right associativity).

Definition lift {A} (r : res A) : M A := fun w => (r, w, []).

Definition print (l : line) : M unit := fun w => (Ret tt, w, [EvPrint l]).

(** [seconds] in ticks of the clock of [w]. *)
Definition ticks (w : world) (seconds : Z) : Z := seconds * Z.pos (hz w).

(** [time.sleep(seconds)] *)
Definition sleep (site : sleep_site) (seconds : Z) : M unit := fun w =>
  (Ret tt, World (now w + ticks w seconds) (calls w) (net w) (hz w),
   [EvSleep site seconds]).

(** [time.time()], in ticks. *)
Definition time : M Z := fun w => (Ret (now w), w, []).

(** [time.time() + seconds], in ticks. *)
Definition time_plus (seconds : Z) : M Z := fun w =>
  (Ret (now w + ticks w seconds), w, []).

(** One [urlopen]: the clock moves by the latency of the reply. *)
Definition urlopen (url : string) (data : json) : M net_outcome := fun w =>
  let r := net w (calls w) in
  (Ret (outcome r),
   World (now w + Z.of_N (latency r)) (S (calls w)) (net w) (hz w),
   [EvPost url data]).

(** [range(lo, hi)] *)
Definition range (lo hi : Z) : list Z :=
  map (fun i => lo + Z.of_nat i) (seq 0 (Z.to_nat (hi - lo))).


(** ** Dictionary access *)

Module Dict.

(** [v.get(k, default)]; anything but a dict has no [get]. *)
Definition get (v : json) (k : string) (default : json) : res json :=
  match v with
  | JObj items =>
      Ret (match Py.assoc k items with Some x => x | None => default end)
  | _ => Raise (OtherError "AttributeError")
  end.

(** [v[k]] for a string key [k]. *)
Definition getitem (v : json) (k : string) : res json :=
  match v with
  | JObj items =>
      match Py.assoc k items with
      | Some x => Ret x
      | None => Raise (OtherError "KeyError")
      end
  | _ => Raise (OtherError "TypeError")
  end.

(** [a + " " + b]: defined on two strings only. *)
Definition join_space (a b : json) : res string :=
  match a, b with
  | JStr x, JStr y => Ret (x +:+ " " +:+ y)
  | _, _ => Raise (OtherError "TypeError")
  end.

End Dict.

(** [str(v)], given [repr]: a string is itself, anything else prints as
    its [repr]. *)
Definition py_str (py_repr : json -> string) (v : json) : string :=
  match v with
  | JStr s => s
  | _ => py_repr v
  end.

(** ** The polling loop

    [while time.time() < deadline: body] followed by [raise on_deadline],
    where the body either returns from the function ([Some data]), goes
    round again ([None]) or raises.  A body that goes round again has
    moved the clock, so the distance to the deadline decreases. *)

Definition inspect {A : Type} (a : A) : {b : A | a = b} := exist _ a eq_refl.

Section While.

Variable body : M (option json).
Hypothesis body_again :
  forall w w1 t1, body w = (Ret None, w1, t1) -> now w < now w1.
Variable on_deadline : exn.

Equations? while_before (deadline : Z) (w : world) : res json * world * trace
    by wf (Z.to_nat (deadline - now w)) lt :=
  while_before deadline w with Z_lt_dec (now w) deadline := {
    | right _ => raise on_deadline w
    | left Hlt with inspect (body w) := {
        | exist _ (Ret (Some data), w1, t1) _ => (Ret data, w1, t1)
        | exist _ (Ret None, w1, t1) Heq =>
            match while_before deadline w1 with
            | (r, w2, t2) => (r, w2, t1 ++ t2)
            end
        | exist _ (Raise e, w1, t1) _ => (Raise e, w1, t1) } }.
Proof.
  apply body_again in Heq. lia.
Qed.

End While.

(** ** The retry loop of [try_generate]

    The two copies of [generate_video.py] share it word for word, up to
    the text of the printed lines; [try_block attempt] is the body of the
    [try] statement. *)

Module Video.

Definition GRSAI_VIDEO_URL : string := "https://grsaiapi.com/v1/video/veo".
Definition GRSAI_RESULT_URL : string := "https://grsaiapi.com/v1/draw/result".

Definition PERMANENT_KEYWORDS : list string :=
  ["moderation"; "nsfw"; "invalid"; "unauthorized"; "forbidden"; "not exist"].

Definition is_permanent_error (msg : string) : bool :=
  let msg_lower := PyStr.lower msg in
  existsb (fun kw => PyStr.contains kw msg_lower) PERMANENT_KEYWORDS.

(** What one pass through the [for] body leaves: the function returned,
    or the loop goes on with the updated [delay] and [last_error]. *)
Inductive step : Type :=
| Done (data : json)
| Next (delay : Z) (last_error : exn).

Section Retry.

Variable try_block : Z -> M json.
Variable max_retries : Z.

(** The two [except] clauses; [inr e] is "go on after the [try] statement
    with [last_error = e]".  An exception of another class is not
    caught. *)
Definition on_error (attempt : Z) (e : exn) : M (json + exn) :=
  match e with
  | TimeoutError m =>
      print (AttemptTimedOut attempt m) ;;;
      ret (inr e)
  | RuntimeError msg | TransientError msg =>
      if is_permanent_error msg then
        print (PermanentStop msg) ;;;
        raise e
      else
        print (AttemptFailed attempt msg) ;;;
        ret (inr e)
  | OtherError _ => raise e
  end.

(** One pass through the body of the [for] loop. *)
Definition iteration (attempt delay : Z) : M step :=
  caught <- try_except (data <- try_block attempt ;; ret (inl data))
              (on_error attempt) ;;
  match caught with
  | inl data => ret (Done data)
  | inr last_error =>
      if attempt <? max_retries then
        print (Retrying delay) ;;;
        sleep BackoffSleep delay ;;;
        ret (Next (Z.min (delay * 2) 60) last_error)
      else ret (Next delay last_error)
  end.

(** [for attempt in attempts: ...] followed by [raise last_error]. *)
Fixpoint for_attempts (attempts : list Z) (delay : Z) (last_error : exn)
    : M json :=
  match attempts with
  | [] => raise last_error
  | attempt :: rest =>
      s <- iteration attempt delay ;;
      match s with
      | Done data => ret data
      | Next delay' last_error' => for_attempts rest delay' last_error'
      end
  end.

End Retry.

End Video.

(** * The video client, [veo3-1/scripts/generate_video.py] *)

Module Veo.

Import Video.

Definition READ_TIMEOUT : Z := 45.
Definition POLL_INTERVAL : Z := 5.
Definition POLL_TIMEOUT : Z := 600.

Definition http_post (url : string) (data : json) (api_key : string) : M json :=
  o <- urlopen url data ;;
  match o with
  | NetBody v => ret v
  | NetHTTPError code body_text =>
      if code =? 401 then
        raise (RuntimeError
          ("Unauthorized (HTTP 401): check your API key. Details: " +:+ body_text))
      else if code =? 429 then
        raise (RuntimeError
          ("Rate limited (HTTP 429): too many requests. Details: " +:+ body_text))
      else if 500 <=? code then
        raise (RuntimeError
          ("Server error (HTTP " +:+ PyStr.of_Z code +:+ "): " +:+ body_text))
      else
        raise (RuntimeError ("HTTP " +:+ PyStr.of_Z code +:+ ": " +:+ body_text))
  | NetURLError reason =>
      raise (RuntimeError
        ("Network error connecting to " +:+ url +:+ ": " +:+ reason))
  | NetTimeout _ =>
      raise (TimeoutError
        ("Request to " +:+ url +:+ " timed out after "
         +:+ PyStr.of_Z READ_TIMEOUT +:+ "s"))
  | NetOther cls => raise (OtherError cls)
  end.

Section WithRepr.

Variable py_repr : json -> string.

Definition submit_task (payload : json) (api_key : string) : M json :=
  response <- http_post GRSAI_VIDEO_URL payload api_key ;;
  code <- lift (Dict.get response "code" JNull) ;;
  if negb (Py.eq_zero code) then
    msg <- lift (Dict.get response "msg" (JStr "Unknown error from API")) ;;
    raise (RuntimeError (py_str py_repr msg))
  else
    data <- lift (Dict.get response "data" (JObj [])) ;;
    task_id <- lift (Dict.get data "id" JNull) ;;
    if negb (Py.truthy task_id) then
      raise (RuntimeError
        ("No task ID in response: " +:+ py_str py_repr response))
    else ret task_id.

(** The message of the [TimeoutError] raised at the deadline. *)
Definition poll_timeout_msg (task_id : json) : string :=
  "Generation timed out after " +:+ PyStr.of_Z POLL_TIMEOUT
  +:+ "s (task: " +:+ py_str py_repr task_id +:+ ")".

(** The body of the [while] loop of [poll_result]. *)
Definition poll_once (task_id : json) (api_key : string) : M (option json) :=
  result <- http_post GRSAI_RESULT_URL (JObj [("id", task_id)]) api_key ;;
  code <- lift (Dict.get result "code" JNull) ;;
  if negb (Py.eq_zero code) then
    msg <- lift (Dict.get result "msg" JNull) ;;
    raise (RuntimeError ("Result API error: " +:+ py_str py_repr msg))
  else
    data <- lift (Dict.get result "data" (JObj [])) ;;
    status <- lift (Dict.get data "status" JNull) ;;
    progress <- lift (Dict.get data "progress" (JInt 0)) ;;
    print (Progress progress status) ;;;
    if Py.eq_str status "succeeded" then ret (Some data)
    else if Py.eq_str status "failed" then
      failure_reason <- lift (Dict.get data "failure_reason" (JStr "")) ;;
      error <- lift (Dict.get data "error" (JStr "")) ;;
      joined <- lift (Dict.join_space failure_reason error) ;;
      let reason := PyStr.strip joined in
      raise (RuntimeError
        (if PyStr.nonempty reason then reason
         else "Generation failed with unknown reason"))
    else
      sleep PollSleep POLL_INTERVAL ;;;
      ret None.

Lemma poll_once_again task_id api_key w w1 t1 :
  poll_once task_id api_key w = (Ret None, w1, t1) -> now w < now w1.
Proof.
  unfold poll_once, http_post, bind, urlopen, lift, raise, ret, print, sleep.
  destruct (outcome (net w (calls w))) as [v|code body|reason|m|cls]; simpl;
    try discriminate.
  - destruct (Dict.get v "code" JNull) as [c|e]; try discriminate.
    destruct (negb (Py.eq_zero c)).
    + destruct (Dict.get v "msg" JNull); discriminate.
    + destruct (Dict.get v "data" (JObj [])) as [d|e]; try discriminate.
      destruct (Dict.get d "status" JNull) as [st|e]; try discriminate.
      destruct (Dict.get d "progress" (JInt 0)) as [pr|e]; try discriminate.
      simpl. destruct (Py.eq_str st "succeeded"); try discriminate.
      destruct (Py.eq_str st "failed").
      * destruct (Dict.get d "failure_reason" (JStr "")); try discriminate.
        destruct (Dict.get d "error" (JStr "")); try discriminate.
        destruct (Dict.join_space a a0); discriminate.
      * simpl. intros H; inversion H; subst; simpl.
        unfold POLL_INTERVAL, ticks. simpl. lia.
  - repeat match goal with |- context [if ?b then _ else _] => destruct b end;
      discriminate.
Qed.

Definition poll_result (task_id : json) (api_key : string) : M json :=
  deadline <- time_plus POLL_TIMEOUT ;;
  while_before (poll_once task_id api_key) (poll_once_again task_id api_key)
    (TimeoutError (poll_timeout_msg task_id)) deadline.

(** The [try] block of [try_generate]. *)
Definition try_block (payload : json) (api_key : string)
    (max_retries attempt : Z) : M json :=
  model <- lift (Dict.getitem payload "model") ;;
  print (Submitting model attempt max_retries) ;;;
  task_id <- submit_task payload api_key ;;
  print (TaskCreated model task_id) ;;;
  poll_result task_id api_key.

Definition try_generate (payload : json) (api_key : string)
    (max_retries : Z) : M json :=
  for_attempts (try_block payload api_key max_retries) max_retries
    (range 1 (max_retries + 1)) 5 (RuntimeError "No attempts made").

End WithRepr.

End Veo.

(** * The older copy, [veo3.1/scripts/generate_video.py] *)

Module Legacy.

Import Video.

(** [poll_result] is only called with its defaults
    [poll_interval = 5.0] and [timeout = 600]. *)
Definition poll_interval : Z := 5.
Definition timeout : Z := 600.

(** No [except] clause here: whatever [urlopen] raises goes up as it
    is. *)
Definition http_post (url : string) (data : json) (api_key : string) : M json :=
  o <- urlopen url data ;;
  match o with
  | NetBody v => ret v
  | NetHTTPError _ _ => raise (OtherError "HTTPError")
  | NetURLError _ => raise (OtherError "URLError")
  | NetTimeout m => raise (TimeoutError m)
  | NetOther cls => raise (OtherError cls)
  end.

Section WithRepr.

Variable py_repr : json -> string.

Definition submit_task (payload : json) (api_key : string) : M json :=
  response <- http_post GRSAI_VIDEO_URL payload api_key ;;
  code <- lift (Dict.get response "code" JNull) ;;
  if negb (Py.eq_zero code) then
    msg <- lift (Dict.get response "msg" (JStr "Unknown error")) ;;
    raise (RuntimeError (py_str py_repr msg))
  else
    data <- lift (Dict.getitem response "data") ;;
    lift (Dict.getitem data "id").

Definition poll_timeout_msg : string :=
  "Generation timed out after " +:+ PyStr.of_Z timeout +:+ "s".

(** The body of the [while] loop of [poll_result]. *)
Definition poll_once (task_id : json) (api_key : string) : M (option json) :=
  result <- http_post GRSAI_RESULT_URL (JObj [("id", task_id)]) api_key ;;
  code <- lift (Dict.get result "code" JNull) ;;
  if negb (Py.eq_zero code) then
    msg <- lift (Dict.get result "msg" JNull) ;;
    raise (RuntimeError ("Result API error: " +:+ py_str py_repr msg))
  else
    data <- lift (Dict.getitem result "data") ;;
    status <- lift (Dict.get data "status" JNull) ;;
    progress <- lift (Dict.get data "progress" (JInt 0)) ;;
    print (Progress progress status) ;;;
    if Py.eq_str status "succeeded" then ret (Some data)
    else if Py.eq_str status "failed" then
      failure_reason <- lift (Dict.get data "failure_reason" (JStr "")) ;;
      error <- lift (Dict.get data "error" (JStr "")) ;;
      joined <- lift (Dict.join_space failure_reason error) ;;
      let reason := PyStr.strip joined in
      raise (RuntimeError
        (if PyStr.nonempty reason then reason else "unknown failure"))
    else
      sleep PollSleep poll_interval ;;;
      ret None.

Lemma poll_once_advances task_id api_key w w1 t1 :
  poll_once task_id api_key w = (Ret None, w1, t1) -> now w < now w1.
Proof.
  unfold poll_once, http_post, bind, urlopen, lift, raise, ret, print, sleep.
  destruct (outcome (net w (calls w))) as [v|code body|reason|m|cls]; simpl;
    try discriminate.
  destruct (Dict.get v "code" JNull) as [c|e]; try discriminate.
  destruct (negb (Py.eq_zero c)).
  - destruct (Dict.get v "msg" JNull); discriminate.
  - destruct (Dict.getitem v "data") as [d|e]; try discriminate.
    destruct (Dict.get d "status" JNull) as [st|e]; try discriminate.
    destruct (Dict.get d "progress" (JInt 0)) as [pr|e]; try discriminate.
    simpl. destruct (Py.eq_str st "succeeded"); try discriminate.
    destruct (Py.eq_str st "failed").
    + destruct (Dict.get d "failure_reason" (JStr "")); try discriminate.
      destruct (Dict.get d "error" (JStr "")); try discriminate.
      destruct (Dict.join_space a a0); discriminate.
    + simpl. intros H; inversion H; subst; simpl.
      unfold poll_interval, ticks. simpl. lia.
Qed.

Definition poll_result (task_id : json) (api_key : string) : M json :=
  deadline <- time_plus timeout ;;
  while_before (poll_once task_id api_key) (poll_once_advances task_id api_key)
    (TimeoutError poll_timeout_msg) deadline.

(** The [try] block of [try_generate]. *)
Definition try_block (payload : json) (api_key : string)
    (max_retries attempt : Z) : M json :=
  model <- lift (Dict.getitem payload "model") ;;
  print (Submitting model attempt max_retries) ;;;
  task_id <- submit_task payload api_key ;;
  print (TaskCreated model task_id) ;;;
  poll_result task_id api_key.

Definition try_generate (payload : json) (api_key : string)
    (max_retries : Z) : M json :=
  for_attempts (try_block payload api_key max_retries) max_retries
    (range 1 (max_retries + 1)) 5 (RuntimeError "no attempts made").

End WithRepr.

End Legacy.

(** * The chat client of the plugin, [query_gemini.py] *)

Module Gemini.

Definition GRSAI_CHAT_URL : string := "https://grsaiapi.com/v1/chat/completions".
Definition REQUEST_TIMEOUT : Z := 120.
Definition MAX_RETRIES : Z := 3.
Definition RETRY_DELAY : Z := 4.

Definition http_post (url : string) (data : json) (api_key : string) : M json :=
  o <- urlopen url data ;;
  match o with
  | NetBody v => ret v
  | NetHTTPError code body_text =>
      if code =? 401 then
        raise (RuntimeError
          ("Unauthorized (HTTP 401): check your API key. Details: " +:+ body_text))
      else if code =? 429 then
        raise (TransientError
          ("HTTP 429: too many requests. Details: " +:+ body_text))
      else if 500 <=? code then
        raise (TransientError
          ("HTTP " +:+ PyStr.of_Z code +:+ ": " +:+ body_text))
      else
        raise (RuntimeError ("HTTP " +:+ PyStr.of_Z code +:+ ": " +:+ body_text))
  | NetURLError reason =>
      raise (TransientError
        ("Could not connect to " +:+ url +:+ ": " +:+ reason))
  | NetTimeout _ =>
      raise (TransientError
        ("Request timed out after " +:+ PyStr.of_Z REQUEST_TIMEOUT +:+ "s"))
  | NetOther cls => raise (OtherError cls)
  end.

(** What one pass through the [for] body of [query_with_retry] leaves. *)
Inductive step : Type :=
| Done (response : json)
| Next (delay : Z) (last_error : exn).

(** [except TransientError as e] comes first; [except RuntimeError]
    raises again; nothing else is caught. *)
Definition iteration (payload : json) (api_key : string)
    (attempt delay : Z) : M step :=
  try_except
    (response <- http_post GRSAI_CHAT_URL payload api_key ;;
     ret (Done response))
    (fun e =>
       match e with
       | TransientError msg =>
           if attempt <? MAX_RETRIES then
             print (WillRetry attempt delay msg) ;;;
             sleep BackoffSleep delay ;;;
             ret (Next (Z.min (delay * 2) 30) e)
           else ret (Next delay e)
       | _ => raise e
       end).

Fixpoint for_attempts (payload : json) (api_key : string)
    (attempts : list Z) (delay : Z) (last_error : exn) : M json :=
  match attempts with
  | [] => raise last_error
  | attempt :: rest =>
      s <- iteration payload api_key attempt delay ;;
      match s with
      | Done response => ret response
      | Next delay' last_error' =>
          for_attempts payload api_key rest delay' last_error'
      end
  end.

Definition query_with_retry (payload : json) (api_key : string) : M json :=
  for_attempts payload api_key (range 1 (MAX_RETRIES + 1))
    RETRY_DELAY (RuntimeError "No attempts made").

End Gemini.

(** * Downloading the result *)

Module Download.

Import stdpp.base stdpp.gmap stdpp.strings.

(** The file system as far as the scripts touch it is a
    [gmap string (list Byte.byte)]: the content of each regular file, by
    path.  [Path.write_bytes] replaces the content in one step. *)

(** What [urlopen] or [resp.read] can raise. [HTTPError] is a
    [URLError]. *)
Inductive io_error : Type :=
| IoURLError (reason : string)
| IoTimeout
| IoOther (cls : string).

(** One [resp.read(...)] call: the next bytes of the body, or an
    exception.  Past the end of the script, and at an empty chunk, the
    stream is at its end and [read] returns [b""]. *)
Inductive read_outcome : Type :=
| Chunk (data : list Byte.byte)
| ReadError (e : io_error).

(** [int(resp.headers.get("Content-Length", 0))] *)
Inductive content_length : Type :=
| NoLength               (* header absent: [int(0)] *)
| Length (n : Z)         (* header parsed by [int] *)
| BadLength.             (* [int] raised [ValueError] *)

Inductive open_outcome : Type :=
| OpenError (e : io_error)
| Opened (header : content_length) (body : list read_outcome).

(** Lines printed while downloading. *)
Inductive out : Type :=
| Downloading (pct kb : Z)
| Blank.

Definition DOWNLOAD_TIMEOUT : Z := 300.

(** Truthiness of an [int]. *)
Definition nonzero (n : Z) : bool := negb (n =? 0)%Z.

(** The [while True] loop of [download_video]: reads until the stream
    ends, collecting the chunks. *)
Fixpoint read_loop (total : Z) (body : list read_outcome)
    (downloaded : Z) (chunks : list (list Byte.byte))
    : (io_error + list (list Byte.byte)) * list out :=
  match body with
  | [] => (inr chunks, [])
  | Chunk [] :: _ => (inr chunks, [])
  | Chunk chunk :: rest =>
      let chunks' := chunks ++ [chunk] in
      let downloaded' := (downloaded + Z.of_nat (length chunk))%Z in
      let shown :=
        if nonzero total
        then [Downloading (downloaded' * 100 / total)%Z (downloaded' / 1024)%Z]
        else [] in
      match read_loop total rest downloaded' chunks' with
      | (r, printed) => (r, shown ++ printed)
      end
  | ReadError e :: _ => (inl e, [])
  end.

(** The two [except] clauses of [download_video]. *)
Definition on_io_error (e : io_error) : exn :=
  match e with
  | IoURLError reason =>
      RuntimeError ("Network error downloading video: " +:+ reason)
  | IoTimeout =>
      RuntimeError ("Video download timed out after "
                    +:+ PyStr.of_Z DOWNLOAD_TIMEOUT +:+ "s")
  | IoOther cls => OtherError cls
  end.

(** [download_video(url, output_path)] of [veo3-1], against what the
    server does ([opened]) and the file system [fs]. *)
Definition download_video (opened : open_outcome) (output_path : string)
    (fs : gmap string (list Byte.byte))
    : res unit * gmap string (list Byte.byte) * list out :=
  match opened with
  | OpenError e => (Raise (on_io_error e), fs, [])
  | Opened BadLength _ => (Raise (OtherError "ValueError"), fs, [])
  | Opened header body =>
      let total := match header with Length n => n | _ => 0%Z end in
      match read_loop total body 0 [] with
      | (inr chunks, printed) =>
          (Ret tt, <[output_path := concat chunks]> fs, printed ++ [Blank])
      | (inl e, printed) => (Raise (on_io_error e), fs, printed)
      end
  end.



(** The bytes the reads of [download_video] return before the stream
    ends. *)
Fixpoint delivered (body : list read_outcome) : list Byte.byte :=
  match body with
  | Chunk (b :: chunk) :: rest => (b :: chunk) ++ delivered rest
  | _ => []
  end.

(** The exception of the first read that fails, when one fails before
    the stream ends. *)
Fixpoint first_error (body : list read_outcome) : option io_error :=
  match body with
  | [] => None
  | Chunk [] :: _ => None
  | Chunk _ :: rest => first_error rest
  | ReadError e :: _ => Some e
  end.

End Download.

(** * What a trace shows *)

(** The delays slept between attempts, in order. *)
Definition backoff_sleeps (t : trace) : list Z :=
  flat_map (fun e => match e with
                     | EvSleep BackoffSleep d => [d]
                     | _ => []
                     end) t.

(** The attempts reported as failed and to be retried ("Attempt n timed
    out", "Attempt n failed"), in order. *)
Definition failed_attempts (t : trace) : list Z :=
  flat_map (fun e => match e with
                     | EvPrint (AttemptTimedOut n _) => [n]
                     | EvPrint (AttemptFailed n _) => [n]
                     | _ => []
                     end) t.

(** The requests sent to [url]. *)
Definition posts_to (url : string) (t : trace) : nat :=
  List.length (filter (fun e => match e with
                                | EvPost u _ => String.eqb u url
                                | _ => false
                                end) t).

(** The status lines printed by the poller: [(progress, status)] of every
    answer it looked at. *)
Definition observed (t : trace) : list (json * json) :=
  flat_map (fun e => match e with
                     | EvPrint (Progress p st) => [(p, st)]
                     | _ => []
                     end) t.

(** The sleeps of the poller, in order. *)
Definition poll_sleeps (t : trace) : list Z :=
  flat_map (fun e => match e with
                     | EvSleep PollSleep d => [d]
                     | _ => []
                     end) t.

(** A status that ends the polling. *)
Definition terminal (status : json) : bool :=
  Py.eq_str status "succeeded" || Py.eq_str status "failed".

(** The ticks taken by the [n] requests that follow the [i]-th. *)
Fixpoint latencies (net : nat -> net_reply) (i n : nat) : Z :=
  match n with
  | O => 0
  | S n' => Z.of_N (latency (net i)) + latencies net (S i) n'
  end.

(** The events one submit-and-poll cycle can produce. *)
Definition cycle_event (e : event) : bool :=
  match e with
  | EvPost _ _ => true
  | EvSleep PollSleep _ => true
  | EvPrint (Submitting _ _ _) => true
  | EvPrint (TaskCreated _ _) => true
  | EvPrint (Progress _ _) => true
  | _ => false
  end.

(** The backoff schedule: [d], then doubled each time up to 60. *)
Fixpoint delays (d : Z) (n : nat) : list Z :=
  match n with
  | O => []
  | S n' => d :: delays (Z.min (d * 2) 60) n'
  end.

(** The line that reports a failed attempt that will be retried. *)
Definition failure_line (attempt : Z) (e : exn) : option line :=
  match e with
  | TimeoutError m => Some (AttemptTimedOut attempt m)
  | RuntimeError m | TransientError m =>
      if Video.is_permanent_error m then None
      else Some (AttemptFailed attempt m)
  | OtherError _ => None
  end.

(** [kw] occurs in [msg] when case is ignored. *)
Definition ci_contains (kw msg : string) : Prop :=
  exists pre post, PyStr.lower msg = pre +:+ PyStr.lower kw +:+ post.

(** * Lemmas on strings *)

Section Strings.

Lemma prefix_app kw s :
  String.prefix kw s = true <-> exists post, s = kw +:+ post.
Proof.
  revert s. induction kw as [|c kw IH]; intros s.
  - split; [intros _; exists s; reflexivity | destruct s; reflexivity].
  - destruct s as [|c' s]; simpl.
    + split; [discriminate | intros [post H]; discriminate].
    + destruct (Ascii.ascii_dec c c') as [->|Hne].
      * rewrite IH. split; intros [post H]; exists post.
        -- now rewrite H.
        -- now inversion H.
      * split; [discriminate | intros [post H]; inversion H; subst; now destruct Hne].
Qed.

Lemma contains_spec kw s :
  PyStr.contains kw s = true <-> exists pre post, s = pre +:+ kw +:+ post.
Proof.
  induction s as [|c s IH].
  - change (PyStr.contains kw "") with (String.prefix kw "" || false).
    rewrite orb_false_r, prefix_app. split.
    + intros [post H]. exists "", post. exact H.
    + intros [pre [post H]]. destruct pre; simpl in H.
      * exists post. exact H.
      * discriminate.
  - change (PyStr.contains kw (String c s))
      with (String.prefix kw (String c s) || PyStr.contains kw s).
    rewrite orb_true_iff, prefix_app, IH. split.
    + intros [[post H] | [pre [post H]]].
      * exists "", post. exact H.
      * exists (String c pre), post. simpl. now rewrite H.
    + intros [pre [post H]]. destruct pre as [|c' pre]; simpl in H.
      * left. exists post. exact H.
      * right. inversion H. exists pre, post. reflexivity.
Qed.

Lemma lower_keywords kw :
  In kw Video.PERMANENT_KEYWORDS -> PyStr.lower kw = kw.
Proof.
  unfold Video.PERMANENT_KEYWORDS. simpl.
  intros H. repeat (destruct H as [<-|H]; [reflexivity|]). destruct H.
Qed.

(** [is_permanent_error] is the case-insensitive search for one of the
    keywords. *)
Lemma is_permanent_error_spec msg :
  Video.is_permanent_error msg = true <->
  exists kw, In kw Video.PERMANENT_KEYWORDS /\ ci_contains kw msg.
Proof.
  unfold Video.is_permanent_error, ci_contains. rewrite existsb_exists.
  split; intros [kw [Hin H]]; exists kw; split; auto.
  - rewrite (lower_keywords kw Hin). now apply contains_spec.
  - rewrite (lower_keywords kw Hin) in H. now apply contains_spec.
Qed.

End Strings.

(** * Lemmas on lists and traces *)

Lemma range_nil lo hi : hi <= lo -> range lo hi = [].
Proof.
  intros H. unfold range. replace (Z.to_nat (hi - lo)) with 0%nat by lia.
  reflexivity.
Qed.

Lemma range_cons lo hi : lo < hi -> range lo hi = lo :: range (lo + 1) hi.
Proof.
  intros H. unfold range.
  replace (Z.to_nat (hi - lo)) with (S (Z.to_nat (hi - (lo + 1)))) by lia.
  simpl. f_equal; [lia|].
  rewrite <- seq_shift, map_map. apply map_ext. intros i. lia.
Qed.

Lemma range_length lo hi : List.length (range lo hi) = Z.to_nat (hi - lo).
Proof. unfold range. now rewrite length_map, length_seq. Qed.

Lemma range_In lo hi i : In i (range lo hi) <-> lo <= i < hi.
Proof.
  unfold range. rewrite in_map_iff. split.
  - intros [n [<- Hn]]. apply in_seq in Hn. lia.
  - intros H. exists (Z.to_nat (i - lo)). split; [lia|].
    apply in_seq. lia.
Qed.

Lemma delays_length d n : List.length (delays d n) = n.
Proof. revert d. induction n; intros d; simpl; auto. Qed.

(** The schedule in closed form. *)
Lemma delays_nth d n i :
  0 < d <= 60 -> (i < n)%nat ->
  nth_error (delays d n) i = Some (Z.min (d * 2 ^ Z.of_nat i) 60).
Proof.
  revert d i. induction n as [|n IH]; intros d i Hd Hi; [lia|].
  destruct i as [|i]; simpl.
  - f_equal. lia.
  - rewrite IH by lia. f_equal.
    replace (2 ^ Z.of_nat (S i)) with (2 * 2 ^ Z.of_nat i)
      by (rewrite Nat2Z.inj_succ, Z.pow_succ_r; lia).
    assert (Hp : 1 <= 2 ^ Z.of_nat i) by (apply Z.pow_le_mono_r with (b := 0); lia).
    destruct (Z.le_gt_cases (d * 2) 60) as [Hle|Hgt].
    + rewrite (Z.min_l (d * 2) 60) by lia. f_equal. lia.
    + rewrite (Z.min_r (d * 2) 60) by lia.
      rewrite !Z.min_r by nia. reflexivity.
Qed.

Lemma backoff_sleeps_app t1 t2 :
  backoff_sleeps (t1 ++ t2) = backoff_sleeps t1 ++ backoff_sleeps t2.
Proof. apply flat_map_app. Qed.

Lemma failed_attempts_app t1 t2 :
  failed_attempts (t1 ++ t2) = failed_attempts t1 ++ failed_attempts t2.
Proof. apply flat_map_app. Qed.

Lemma observed_app t1 t2 : observed (t1 ++ t2) = observed t1 ++ observed t2.
Proof. apply flat_map_app. Qed.

Lemma posts_to_app url t1 t2 :
  posts_to url (t1 ++ t2) = (posts_to url t1 + posts_to url t2)%nat.
Proof. unfold posts_to. now rewrite filter_app, length_app. Qed.

Lemma posts_to_nil url : posts_to url [] = 0%nat.
Proof. reflexivity. Qed.

Lemma posts_to_print url l t : posts_to url (EvPrint l :: t) = posts_to url t.
Proof. reflexivity. Qed.

Lemma posts_to_sleep url site d t :
  posts_to url (EvSleep site d :: t) = posts_to url t.
Proof. reflexivity. Qed.

Lemma posts_to_post url data t :
  posts_to url (EvPost url data :: t) = S (posts_to url t).
Proof. unfold posts_to. simpl. now rewrite String.eqb_refl. Qed.

(** A cycle neither sleeps for backoff nor reports a failed attempt. *)
Lemma cycle_no_backoff t :
  Forall (fun e => cycle_event e = true) t -> backoff_sleeps t = [].
Proof.
  induction 1 as [|e t He _ IH]; [reflexivity|].
  simpl. rewrite IH. destruct e as [| [|] |[]]; simpl in *; congruence.
Qed.

Lemma cycle_no_failure t :
  Forall (fun e => cycle_event e = true) t -> failed_attempts t = [].
Proof.
  induction 1 as [|e t He _ IH]; [reflexivity|].
  simpl. rewrite IH. destruct e as [| [|] |[]]; simpl in *; congruence.
Qed.

(** * Lemmas on the polling loop *)

Section WhileFacts.

Variable body : M (option json).
Hypothesis body_again :
  forall w w1 t1, body w = (Ret None, w1, t1) -> now w < now w1.
Variable on_deadline : exn.

Lemma while_before_step deadline w :
  while_before body body_again on_deadline deadline w =
  if now w <? deadline then
    match body w with
    | (Ret (Some data), w1, t1) => (Ret data, w1, t1)
    | (Ret None, w1, t1) =>
        match while_before body body_again on_deadline deadline w1 with
        | (r, w2, t2) => (r, w2, t1 ++ t2)
        end
    | (Raise e, w1, t1) => (Raise e, w1, t1)
    end
  else (Raise on_deadline, w, []).
Proof.
  rewrite while_before_equation_1. unfold while_before_unfold_clause_1.
  destruct (Z_lt_dec (now w) deadline) as [H|H].
  - apply Z.ltb_lt in H as H'. rewrite H'. unfold inspect.
    unfold while_before_unfold_clause_1_clause_2.
    destruct (body w) as [[[[d|]|e] w1] t1]; reflexivity.
  - apply Z.ltb_nlt in H. rewrite H. reflexivity.
Qed.

(** Induction along the passes of the loop. *)
Lemma while_before_run_ind
    (P : world -> res json * world * trace -> Prop) deadline :
  (forall w, deadline <= now w -> P w (Raise on_deadline, w, [])) ->
  (forall w d w1 t1, now w < deadline ->
     body w = (Ret (Some d), w1, t1) -> P w (Ret d, w1, t1)) ->
  (forall w e w1 t1, now w < deadline ->
     body w = (Raise e, w1, t1) -> P w (Raise e, w1, t1)) ->
  (forall w w1 t1 r w2 t2, now w < deadline ->
     body w = (Ret None, w1, t1) ->
     while_before body body_again on_deadline deadline w1 = (r, w2, t2) ->
     P w1 (r, w2, t2) -> P w (r, w2, t1 ++ t2)) ->
  forall w, P w (while_before body body_again on_deadline deadline w).
Proof.
  intros Hstop Hret Hraise Hagain w.
  remember (Z.to_nat (deadline - now w)) as n eqn:Hn.
  revert w Hn. induction n as [n IH] using lt_wf_ind. intros w Hn.
  rewrite while_before_step.
  destruct (now w <? deadline) eqn:Hlt.
  - apply Z.ltb_lt in Hlt.
    destruct (body w) as [[[[d|]|e] w1] t1] eqn:Hb.
    + now apply Hret.
    + pose proof (body_again _ _ _ Hb) as Hadv.
      destruct (while_before body body_again on_deadline deadline w1)
        as [[r w2] t2] eqn:Hrec.
      apply Hagain with (w1 := w1); auto.
      rewrite <- Hrec. apply (IH (Z.to_nat (deadline - now w1))); lia.
    + now apply Hraise.
  - apply Z.ltb_ge in Hlt. now apply Hstop.
Qed.

End WhileFacts.

(** * Lemmas on the retry loop *)

(** The world after [time.sleep(d)]. *)
Definition slept (d : Z) (w : world) : world :=
  World (now w + ticks w d) (calls w) (net w) (hz w).

(** What is printed when an error ends the loop at once. *)
Definition stop_lines (e : exn) : trace :=
  match e with
  | RuntimeError m | TransientError m =>
      if Video.is_permanent_error m then [EvPrint (PermanentStop m)] else []
  | _ => []
  end.

Ltac unfold_m :=
  unfold bind, try_except, ret, raise, lift, print, sleep, time, time_plus,
    urlopen in *.

Ltac tidy_trace := rewrite ?app_nil_r, <- ?app_assoc; simpl.

Section RetryFacts.

Variable try_block : Z -> M json.
Variable max_retries : Z.

Local Abbreviation iteration := (Video.iteration try_block max_retries).
Local Abbreviation for_attempts := (Video.for_attempts try_block max_retries).

(** One pass of the loop, case by case on what the cycle does. *)
Lemma iteration_cases attempt delay w :
  iteration attempt delay w =
  match try_block attempt w with
  | (Ret data, w1, t1) => (Ret (Video.Done data), w1, t1)
  | (Raise e, w1, t1) =>
      match failure_line attempt e with
      | Some l =>
          if attempt <? max_retries then
            (Ret (Video.Next (Z.min (delay * 2) 60) e), slept delay w1,
             t1 ++ [EvPrint l; EvPrint (Retrying delay);
                    EvSleep BackoffSleep delay])
          else (Ret (Video.Next delay e), w1, t1 ++ [EvPrint l])
      | None => (Raise e, w1, t1 ++ stop_lines e)
      end
  end.
Proof.
  unfold Video.iteration, Video.on_error, failure_line, stop_lines, slept.
  unfold_m.
  destruct (try_block attempt w) as [[[d|e] w1] t1]; simpl.
  - now tidy_trace.
  - destruct e as [m|m|m|c]; simpl;
      try destruct (Video.is_permanent_error m); simpl;
      try destruct (attempt <? max_retries); simpl;
      now tidy_trace.
Qed.

Lemma for_attempts_cons attempt rest delay last_error w :
  for_attempts (attempt :: rest) delay last_error w =
  match iteration attempt delay w with
  | (Ret (Video.Done data), w1, t1) => (Ret data, w1, t1)
  | (Ret (Video.Next delay' e), w1, t1) =>
      match for_attempts rest delay' e w1 with
      | (r, w2, t2) => (r, w2, t1 ++ t2)
      end
  | (Raise e, w1, t1) => (Raise e, w1, t1)
  end.
Proof.
  simpl. unfold bind at 1.
  destruct (iteration attempt delay w) as [[[[d|d' e]|e] w1] t1]; simpl;
    unfold ret; now tidy_trace.
Qed.

Hypothesis try_block_quiet :
  forall attempt w, Forall (fun e => cycle_event e = true)
                      (snd (try_block attempt w)).

(** The run of the loop over the attempts [a .. max_retries]: [j] of them
    are reported failed, a backoff is slept after each of them but the
    last of the budget, following the schedule; when the budget is used
    up, the last error is raised right after its report. *)
Lemma for_attempts_run n : forall a delay last_error w r w' t,
  n = Z.to_nat (max_retries + 1 - a) ->
  for_attempts (range a (max_retries + 1)) delay last_error w = (r, w', t) ->
  exists j : nat,
    a + Z.of_nat j <= Z.max a (max_retries + 1) /\
    failed_attempts t = range a (a + Z.of_nat j) /\
    backoff_sleeps t = delays delay (Nat.min j (Z.to_nat (max_retries - a))) /\
    (a + Z.of_nat j = max_retries + 1 -> (0 < j)%nat ->
     exists e l t0,
       r = Raise e /\ failure_line max_retries e = Some l /\
       t = t0 ++ [EvPrint l]).
Proof.
  assert (Hzero : forall a delay (r : res json) t,
    failed_attempts t = [] -> backoff_sleeps t = [] ->
    exists j : nat,
      a + Z.of_nat j <= Z.max a (max_retries + 1) /\
      failed_attempts t = range a (a + Z.of_nat j) /\
      backoff_sleeps t = delays delay (Nat.min j (Z.to_nat (max_retries - a))) /\
      (a + Z.of_nat j = max_retries + 1 -> (0 < j)%nat ->
       exists e l t0,
         r = Raise e /\ failure_line max_retries e = Some l /\
         t = t0 ++ [EvPrint l])).
  { intros a delay r t Hf Hs. exists 0%nat.
    rewrite Hf, Hs, range_nil by lia.
    split; [lia|]. split; [reflexivity|]. split; [reflexivity|]. lia. }
  induction n as [|n IH]; intros a delay last_error w r w' t Hn Hrun.
  - rewrite range_nil in Hrun by lia. simpl in Hrun. unfold raise in Hrun.
    inversion Hrun; subst. now apply Hzero.
  - rewrite range_cons in Hrun by lia.
    rewrite for_attempts_cons, iteration_cases in Hrun.
    pose proof (try_block_quiet a w) as Hq.
    destruct (try_block a w) as [[[d|e] w1] t1]; simpl in Hq.
    + inversion Hrun; subst.
      apply Hzero; [now apply cycle_no_failure | now apply cycle_no_backoff].
    + destruct (failure_line a e) as [l|] eqn:Hl.
      * assert (Hfl : failed_attempts [EvPrint l] = [a]).
        { destruct e as [m|m|m|c]; simpl in Hl;
            try destruct (Video.is_permanent_error m);
            inversion Hl; reflexivity. }
        assert (Hb : backoff_sleeps [EvPrint l] = []).
        { destruct l; reflexivity. }
        destruct (a <? max_retries) eqn:Hlt.
        -- apply Z.ltb_lt in Hlt.
           destruct (for_attempts (range (a + 1) (max_retries + 1))
                       (Z.min (delay * 2) 60) e (slept delay w1))
             as [[r2 w2] t2] eqn:Hrest.
           inversion Hrun; subst; clear Hrun.
           assert (Hn' : n = Z.to_nat (max_retries + 1 - (a + 1))) by lia.
           destruct (IH _ _ _ _ _ _ _ Hn' Hrest) as [j [Hj [Hf [Hs Hend]]]].
           exists (S j).
           replace (a + Z.of_nat (S j)) with (a + 1 + Z.of_nat j) by lia.
           replace (Z.to_nat (max_retries - a))
             with (S (Z.to_nat (max_retries - (a + 1)))) by lia.
           change [EvPrint l; EvPrint (Retrying delay);
                   EvSleep BackoffSleep delay]
             with ([EvPrint l] ++ [EvPrint (Retrying delay);
                                   EvSleep BackoffSleep delay]).
           rewrite !failed_attempts_app, !backoff_sleeps_app.
           rewrite cycle_no_failure, cycle_no_backoff by assumption.
           rewrite Hfl, Hf, Hs, Hb.
           split; [lia|]. split; [|split].
           ++ rewrite (range_cons a) by lia. reflexivity.
           ++ reflexivity.
           ++ intros Heq _. destruct Hend as [e' [l' [t0 [-> [Hl' ->]]]]];
                [lia | lia |].
              exists e', l',
                (t1 ++ ([EvPrint l] ++ [EvPrint (Retrying delay);
                        EvSleep BackoffSleep delay]) ++ t0).
              split; [reflexivity|]. split; [exact Hl'|].
              now rewrite <- !app_assoc.
        -- apply Z.ltb_ge in Hlt. assert (a = max_retries) by lia. subst a.
           rewrite range_nil in Hrun by lia. simpl in Hrun.
           unfold raise in Hrun. inversion Hrun; subst; clear Hrun.
           exists 1%nat. rewrite app_nil_r.
           rewrite !failed_attempts_app, !backoff_sleeps_app.
           rewrite cycle_no_failure, cycle_no_backoff by assumption.
           rewrite Hfl, Hb.
           replace (Z.to_nat (max_retries - max_retries)) with 0%nat by lia.
           split; [lia|]. split; [|split].
           ++ rewrite (range_cons max_retries) by lia.
              now rewrite range_nil by lia.
           ++ reflexivity.
           ++ intros _ _. exists e, l, t1. auto.
      * inversion Hrun; subst.
        assert (Hs : failed_attempts (stop_lines e) = []
                     /\ backoff_sleeps (stop_lines e) = []).
        { destruct e as [m|m|m|c]; simpl;
            try destruct (Video.is_permanent_error m); auto. }
        destruct Hs as [Hs1 Hs2].
        apply Hzero.
        -- rewrite failed_attempts_app, cycle_no_failure, Hs1 by assumption.
           reflexivity.
        -- rewrite backoff_sleeps_app, cycle_no_backoff, Hs2 by assumption.
           reflexivity.
Qed.

End RetryFacts.

(** * What the poller does, pass by pass and as a whole *)

Section PollFacts.

Variable body : M (option json).
Hypothesis body_again :
  forall w w1 t1, body w = (Ret None, w1, t1) -> now w < now w1.
Variable on_deadline : exn.
Variable interval : Z.

(** [answered reply data progress status]: [reply] is an answer with
    application code 0 whose payload is [data], which shows [progress]
    and [status]. *)
Variable answered : net_reply -> json -> json -> json -> Prop.

(** The exception raised for a payload whose status is ["failed"]. *)
Variable failure : json -> exn.

(** What is known of an exception raised by a pass. *)
Variable pass_error : exn -> Prop.

(** One pass: one request to the result endpoint; then either the status
    is not terminal and the pass sleeps, or it is ["succeeded"] and the
    payload is returned, or the pass raises, after a ["failed"] status or
    without any status. *)
Definition pass_spec (w : world) (r : res (option json)) (w1 : world)
    (t1 : trace) : Prop :=
  net w1 = net w /\ hz w1 = hz w /\ calls w1 = S (calls w) /\
  Forall (fun e => cycle_event e = true) t1 /\
  posts_to Video.GRSAI_VIDEO_URL t1 = 0%nat /\
  posts_to Video.GRSAI_RESULT_URL t1 = 1%nat /\
  match r with
  | Ret None =>
      (exists p st, observed t1 = [(p, st)] /\ terminal st = false) /\
      poll_sleeps t1 = [interval] /\
      now w1 = now w + Z.of_N (latency (net w (calls w))) + ticks w interval
  | Ret (Some data) =>
      (exists p, observed t1 = [(p, JStr "succeeded")] /\
                 answered (net w (calls w)) data p (JStr "succeeded")) /\
      poll_sleeps t1 = [] /\
      now w1 = now w + Z.of_N (latency (net w (calls w)))
  | Raise e =>
      pass_error e /\
      (observed t1 = [] \/
       exists p data, observed t1 = [(p, JStr "failed")] /\
                      answered (net w (calls w)) data p (JStr "failed") /\
                      e = failure data) /\
      poll_sleeps t1 = [] /\
      now w1 = now w + Z.of_N (latency (net w (calls w)))
  end.

(** The whole loop: [rounds] are the statuses of the passes that went
    round again. *)
Definition run_spec (deadline : Z) (w : world) (r : res json) (w' : world)
    (t : trace) : Prop :=
  net w' = net w /\ hz w' = hz w /\
  calls w' = (calls w + posts_to Video.GRSAI_RESULT_URL t)%nat /\
  Forall (fun e => cycle_event e = true) t /\
  posts_to Video.GRSAI_VIDEO_URL t = 0%nat /\
  exists rounds : list (json * json),
    Forall (fun a => terminal (snd a) = false) rounds /\
    poll_sleeps t = repeat interval (List.length rounds) /\
    now w' = now w
             + latencies (net w) (calls w)
                 (posts_to Video.GRSAI_RESULT_URL t)
             + ticks w interval * Z.of_nat (List.length rounds) /\
    match r with
    | Ret data =>
        exists p, observed t = rounds ++ [(p, JStr "succeeded")] /\
                  posts_to Video.GRSAI_RESULT_URL t = S (List.length rounds) /\
                  answered (net w (Nat.pred (calls w'))) data p
                    (JStr "succeeded")
    | Raise e =>
        (e = on_deadline /\ observed t = rounds /\
         posts_to Video.GRSAI_RESULT_URL t = List.length rounds /\
         deadline <= now w')
        \/
        (pass_error e /\
         posts_to Video.GRSAI_RESULT_URL t = S (List.length rounds) /\
         (observed t = rounds \/
          exists p data, observed t = rounds ++ [(p, JStr "failed")] /\
                         answered (net w (Nat.pred (calls w'))) data p
                           (JStr "failed") /\
                         e = failure data))
    end.

Hypothesis body_spec :
  forall w r w1 t1, body w = (r, w1, t1) -> pass_spec w r w1 t1.

Lemma poll_sleeps_app t1 t2 :
  poll_sleeps (t1 ++ t2) = poll_sleeps t1 ++ poll_sleeps t2.
Proof. apply flat_map_app. Qed.

Lemma while_before_spec deadline w :
  match while_before body body_again on_deadline deadline w with
  | (r, w', t) => run_spec deadline w r w' t
  end.
Proof.
  apply (while_before_run_ind body body_again on_deadline
           (fun w out => match out with
                         | (r, w', t) => run_spec deadline w r w' t
                         end)); clear w.
  - intros w Hnow. unfold run_spec, posts_to. simpl.
    split; [reflexivity|]. split; [reflexivity|].
    split; [lia|]. split; [constructor|].
    split; [reflexivity|]. exists []. simpl.
    split; [constructor|]. split; [reflexivity|]. split; [lia|].
    left. auto.
  - intros w d w1 t1 Hlt Hb.
    destruct (body_spec _ _ _ _ Hb)
      as [Hnet [Hhz [Hcalls [Hq [Hv [Hr [[p [Hobs Hans]] [Hsl Hnow]]]]]]]].
    unfold run_spec.
    split; [exact Hnet|]. split; [exact Hhz|].
    split; [lia|]. split; [exact Hq|].
    split; [exact Hv|]. exists []. simpl.
    split; [constructor|]. split; [exact Hsl|].
    split; [rewrite Hr; simpl; lia|].
    exists p. rewrite Hcalls. simpl. auto.
  - intros w e w1 t1 Hlt Hb.
    destruct (body_spec _ _ _ _ Hb)
      as [Hnet [Hhz [Hcalls [Hq [Hv [Hr [Hne [Hobs [Hsl Hnow]]]]]]]]].
    unfold run_spec.
    split; [exact Hnet|]. split; [exact Hhz|].
    split; [lia|]. split; [exact Hq|].
    split; [exact Hv|]. exists []. simpl.
    split; [constructor|]. split; [exact Hsl|].
    split; [rewrite Hr; simpl; lia|].
    right. split; [exact Hne|]. split; [exact Hr|].
    rewrite Hcalls. simpl. exact Hobs.
  - intros w w1 t1 r w2 t2 Hlt Hb Hrec IH.
    destruct (body_spec _ _ _ _ Hb)
      as [Hnet [Hhz [Hcalls [Hq [Hv [Hr [[p [st [Hobs Hst]]] [Hsl Hnow]]]]]]]].
    destruct IH as [Hnet2 [Hhz2 [Hcalls2 [Hq2 [Hv2 [rounds [Hrounds [Hsl2 [Hnow2 Hres]]]]]]]]].
    unfold run_spec.
    rewrite !posts_to_app, Hv, Hv2, Hr.
    split; [congruence|]. split; [congruence|]. split; [lia|].
    split; [apply Forall_app; auto|]. split; [reflexivity|].
    exists ((p, st) :: rounds).
    rewrite poll_sleeps_app, observed_app, Hsl, Hsl2, Hobs.
    split; [constructor; auto|]. split; [reflexivity|].
    split.
    { rewrite Hnow2, Hnow, Hnet, Hcalls. simpl latencies.
      unfold ticks. rewrite Hhz. simpl List.length. lia. }
    assert (Hidx : net w (Nat.pred (calls w2)) = net w1 (Nat.pred (calls w2)))
      by now rewrite Hnet.
    destruct r as [d|e].
    + destruct Hres as [p' [Hobs2 [Hposts Hans]]].
      exists p'. rewrite Hobs2, Hposts, Hidx. simpl. auto.
    + destruct Hres as [[He [Hobs2 [Hposts Hdl]]]
                       | [Hne [Hposts Hobs2]]].
      * left. rewrite Hobs2, Hposts. simpl. auto.
      * right. split; [exact Hne|]. rewrite Hposts.
        split; [reflexivity|].
        destruct Hobs2 as [Hobs2 | [p' [d [Hobs2 [Hans He]]]]].
        -- left. now rewrite Hobs2.
        -- right. exists p', d. rewrite Hobs2, Hidx. simpl. auto.
Qed.

End PollFacts.

(** * The two pollers meet the specification *)

(** The exception raised for a payload whose status is ["failed"]:
    [failure_reason] and [error], each [""] when absent, joined by a
    space and stripped; [fallback] when nothing is left. *)
Definition poll_failure (fallback : string) (data : json) : exn :=
  match Dict.get data "failure_reason" (JStr ""),
        Dict.get data "error" (JStr "") with
  | Ret a, Ret b =>
      match Dict.join_space a b with
      | Ret joined =>
          let reason := PyStr.strip joined in
          RuntimeError (if PyStr.nonempty reason then reason else fallback)
      | Raise e => e
      end
  | Raise e, _ => e
  | _, Raise e => e
  end.

(** An answer of the result endpoint as [veo3-1] reads it: code 0, and
    the payload is the [data] member, or [{}] when there is none. *)
Definition veo_answered (reply : net_reply) (data progress status : json)
    : Prop :=
  exists v code,
    outcome reply = NetBody v /\
    Dict.get v "code" JNull = Ret code /\ Py.eq_zero code = true /\
    Dict.get v "data" (JObj []) = Ret data /\
    Dict.get data "status" JNull = Ret status /\
    Dict.get data "progress" (JInt 0) = Ret progress.

(** The same as [veo3.1] reads it: the [data] member must be there. *)
Definition legacy_answered (reply : net_reply) (data progress status : json)
    : Prop :=
  exists v code,
    outcome reply = NetBody v /\
    Dict.get v "code" JNull = Ret code /\ Py.eq_zero code = true /\
    Dict.getitem v "data" = Ret data /\
    Dict.get data "status" JNull = Ret status /\
    Dict.get data "progress" (JInt 0) = Ret progress.

Lemma eq_str_true v s : Py.eq_str v s = true -> v = JStr s.
Proof.
  destruct v; simpl; try discriminate.
  intros H. apply String.eqb_eq in H. now subst.
Qed.

Lemma get_twice d k1 d1 x k2 d2 :
  Dict.get d k1 d1 = Ret x -> exists y, Dict.get d k2 d2 = Ret y.
Proof. destruct d; simpl; try discriminate. eauto. Qed.

Lemma get_raise d k x e :
  Dict.get d k x = Raise e -> e = OtherError "AttributeError".
Proof. destruct d; simpl; congruence. Qed.

Lemma getitem_raise d k e :
  Dict.getitem d k = Raise e ->
  e = OtherError "KeyError" \/ e = OtherError "TypeError".
Proof.
  destruct d; simpl; try (intros H; inversion H; auto).
  destruct (Py.assoc k items); inversion H; auto.
Qed.

Ltac pass_leaf :=
  let H := fresh "H" in
  intros H; inversion H; subst; clear H;
  unfold pass_spec; simpl;
  repeat match goal with
         | |- _ /\ _ => split
         | |- Forall _ _ => repeat constructor
         | |- True => exact I
         | |- _ = _ => reflexivity
         | |- _ = _ => lia
         | |- _ <> _ => discriminate
         | |- _ <> _ => let E := fresh in intros E; inversion E; discriminate
         end.

Lemma veo_poll_once_spec py_repr task_id api_key w r w1 t1 :
  Veo.poll_once py_repr task_id api_key w = (r, w1, t1) ->
  pass_spec Veo.POLL_INTERVAL veo_answered
    (poll_failure "Generation failed with unknown reason")
    (fun e => e <> TimeoutError (Veo.poll_timeout_msg py_repr task_id))
    w r w1 t1.
Proof.
  unfold Veo.poll_once, Veo.http_post. unfold_m.
  destruct (outcome (net w (calls w))) as [v|code body|reason|m|cls] eqn:Ho;
    simpl.
  - destruct (Dict.get v "code" JNull) as [c|e] eqn:Hc;
      [|apply get_raise in Hc; subst e; solve [pass_leaf; auto]].
    destruct (Py.eq_zero c) eqn:Hz; simpl.
    + destruct (Dict.get v "data" (JObj [])) as [d|e] eqn:Hd;
        [|apply get_raise in Hd; subst e; solve [pass_leaf; auto]].
      destruct (Dict.get d "status" JNull) as [st|e] eqn:Hst;
        [|apply get_raise in Hst; subst e; solve [pass_leaf; auto]].
      destruct (get_twice _ _ _ _ "progress" (JInt 0) Hst) as [pr Hpr].
      destruct (get_twice _ _ _ _ "failure_reason" (JStr "") Hst) as [fr Hfr].
      destruct (get_twice _ _ _ _ "error" (JStr "") Hst) as [er Her].
      rewrite Hpr. simpl.
      destruct (Py.eq_str st "succeeded") eqn:Hs1.
      * apply eq_str_true in Hs1. subst st. pass_leaf.
        exists pr. split; [reflexivity|].
        exists v, c. repeat split; assumption.
      * destruct (Py.eq_str st "failed") eqn:Hs2.
        -- apply eq_str_true in Hs2. subst st.
           rewrite Hfr, Her. simpl.
           assert (Hfail : poll_failure "Generation failed with unknown reason" d
                           = match Dict.join_space fr er with
                             | Ret joined =>
                                 RuntimeError
                                   (if PyStr.nonempty (PyStr.strip joined)
                                    then PyStr.strip joined
                                    else "Generation failed with unknown reason")
                             | Raise e => e
                             end).
           { unfold poll_failure. now rewrite Hfr, Her. }
           destruct (Dict.join_space fr er) as [joined|e] eqn:Hj; simpl.
           ++ pass_leaf. right. exists pr, d. split; [reflexivity|].
              split; [|now rewrite Hfail].
              exists v, c. repeat split; assumption.
           ++ assert (He : e = OtherError "TypeError").
              { destruct fr, er; simpl in Hj; congruence. }
              rewrite He in *. clear He. pass_leaf. right. exists pr, d.
              split; [reflexivity|]. split; [|now rewrite Hfail].
              exists v, c. repeat split; assumption.
        -- pass_leaf. exists pr, st. split; [reflexivity|].
           unfold terminal. now rewrite Hs1, Hs2.
    + destruct (Dict.get v "msg" JNull) as [msg|e] eqn:Hm;
        [|apply get_raise in Hm; subst e]; solve [pass_leaf; auto].
  - repeat match goal with
           | |- context [if ?b then _ else _] => destruct b
           end; solve [pass_leaf; auto].
  - solve [pass_leaf; auto].
  - solve [pass_leaf; auto].
  - solve [pass_leaf; auto].
Qed.

Lemma legacy_poll_once_spec py_repr task_id api_key w r w1 t1 :
  Legacy.poll_once py_repr task_id api_key w = (r, w1, t1) ->
  pass_spec Legacy.poll_interval legacy_answered
    (poll_failure "unknown failure") (fun _ => True) w r w1 t1.
Proof.
  unfold Legacy.poll_once, Legacy.http_post. unfold_m.
  destruct (outcome (net w (calls w))) as [v|code body|reason|m|cls] eqn:Ho;
    simpl.
  - destruct (Dict.get v "code" JNull) as [c|e] eqn:Hc;
      [|apply get_raise in Hc; subst e; solve [pass_leaf; auto]].
    destruct (Py.eq_zero c) eqn:Hz; simpl.
    + destruct (Dict.getitem v "data") as [d|e] eqn:Hd;
        [|apply getitem_raise in Hd; destruct Hd; subst e;
          solve [pass_leaf; auto]].
      destruct (Dict.get d "status" JNull) as [st|e] eqn:Hst;
        [|apply get_raise in Hst; subst e; solve [pass_leaf; auto]].
      destruct (get_twice _ _ _ _ "progress" (JInt 0) Hst) as [pr Hpr].
      destruct (get_twice _ _ _ _ "failure_reason" (JStr "") Hst) as [fr Hfr].
      destruct (get_twice _ _ _ _ "error" (JStr "") Hst) as [er Her].
      rewrite Hpr. simpl.
      destruct (Py.eq_str st "succeeded") eqn:Hs1.
      * apply eq_str_true in Hs1. subst st. pass_leaf.
        exists pr. split; [reflexivity|].
        exists v, c. repeat split; assumption.
      * destruct (Py.eq_str st "failed") eqn:Hs2.
        -- apply eq_str_true in Hs2. subst st.
           rewrite Hfr, Her. simpl.
           assert (Hfail : poll_failure "unknown failure" d
                           = match Dict.join_space fr er with
                             | Ret joined =>
                                 RuntimeError
                                   (if PyStr.nonempty (PyStr.strip joined)
                                    then PyStr.strip joined
                                    else "unknown failure")
                             | Raise e => e
                             end).
           { unfold poll_failure. now rewrite Hfr, Her. }
           destruct (Dict.join_space fr er) as [joined|e] eqn:Hj; simpl.
           ++ pass_leaf. right. exists pr, d. split; [reflexivity|].
              split; [|now rewrite Hfail].
              exists v, c. repeat split; assumption.
           ++ assert (He : e = OtherError "TypeError").
              { destruct fr, er; simpl in Hj; congruence. }
              rewrite He in *. clear He. pass_leaf. right. exists pr, d.
              split; [reflexivity|]. split; [|now rewrite Hfail].
              exists v, c. repeat split; assumption.
        -- pass_leaf. exists pr, st. split; [reflexivity|].
           unfold terminal. now rewrite Hs1, Hs2.
    + destruct (Dict.get v "msg" JNull) as [msg|e] eqn:Hm;
        [|apply get_raise in Hm; subst e]; solve [pass_leaf; auto].
  - solve [pass_leaf; auto].
  - solve [pass_leaf; auto].
  - solve [pass_leaf; auto].
  - solve [pass_leaf; auto].
Qed.

(** The world after one [urlopen]. *)
Definition called (w : world) : world :=
  World (now w + Z.of_N (latency (net w (calls w)))) (S (calls w)) (net w)
    (hz w).

Section VeoFacts.

Variable py_repr : json -> string.

Lemma veo_poll_result_spec task_id api_key w :
  match Veo.poll_result py_repr task_id api_key w with
  | (r, w', t) =>
      run_spec (TimeoutError (Veo.poll_timeout_msg py_repr task_id))
        Veo.POLL_INTERVAL veo_answered
        (poll_failure "Generation failed with unknown reason")
        (fun e => e <> TimeoutError (Veo.poll_timeout_msg py_repr task_id))
        (now w + ticks w Veo.POLL_TIMEOUT) w r w' t
  end.
Proof.
  unfold Veo.poll_result. unfold_m. simpl.
  pose proof (while_before_spec _ (Veo.poll_once_again py_repr task_id api_key)
                (TimeoutError (Veo.poll_timeout_msg py_repr task_id))
                Veo.POLL_INTERVAL veo_answered
                (poll_failure "Generation failed with unknown reason")
                (fun e => e <> TimeoutError (Veo.poll_timeout_msg py_repr task_id))
                (veo_poll_once_spec py_repr task_id api_key)
                (now w + ticks w Veo.POLL_TIMEOUT) w) as H.
  destruct (while_before _ _ _ _ w) as [[r w'] t]. exact H.
Qed.

(** [submit_task] sends one request; what it returns is the truthy [id]
    of the [data] of an answer with code 0. *)
Lemma veo_submit_task_spec payload api_key w :
  exists r,
    Veo.submit_task py_repr payload api_key w
    = (r, called w, [EvPost Video.GRSAI_VIDEO_URL payload]) /\
    forall task_id, r = Ret task_id ->
      Py.truthy task_id = true /\
      exists v code data,
        outcome (net w (calls w)) = NetBody v /\
        Dict.get v "code" JNull = Ret code /\ Py.eq_zero code = true /\
        Dict.get v "data" (JObj []) = Ret data /\
        Dict.get data "id" JNull = Ret task_id.
Proof.
  unfold Veo.submit_task, Veo.http_post, called. unfold_m.
  destruct (outcome (net w (calls w))) as [v|code body|reason|m|cls] eqn:Ho;
    simpl.
  - destruct (Dict.get v "code" JNull) as [c|e] eqn:Hc;
      [|eexists; split; [reflexivity | discriminate]].
    destruct (Py.eq_zero c) eqn:Hz; simpl.
    + destruct (Dict.get v "data" (JObj [])) as [d|e] eqn:Hd;
        [|eexists; split; [reflexivity | discriminate]].
      destruct (Dict.get d "id" JNull) as [i|e] eqn:Hi;
        [|eexists; split; [reflexivity | discriminate]].
      destruct (Py.truthy i) eqn:Ht; simpl;
        (eexists; split; [reflexivity|]); [|discriminate].
      intros task_id H. inversion H; subst.
      split; [exact Ht|]. exists v, c, d. auto.
    + destruct (Dict.get v "msg" (JStr "Unknown error from API"));
        eexists; (split; [reflexivity | discriminate]).
  - repeat match goal with
           | |- context [if ?b then _ else _] => destruct b
           end; eexists; (split; [reflexivity | discriminate]).
  - eexists; (split; [reflexivity | discriminate]).
  - eexists; (split; [reflexivity | discriminate]).
  - eexists; (split; [reflexivity | discriminate]).
Qed.

(** The [try] block, case by case. *)
Lemma veo_try_block_cases payload api_key max_retries attempt w :
  Veo.try_block py_repr payload api_key max_retries attempt w =
  match Dict.getitem payload "model" with
  | Raise e => (Raise e, w, [])
  | Ret model =>
      match Veo.submit_task py_repr payload api_key w with
      | (Raise e, w1, t1) =>
          (Raise e, w1, EvPrint (Submitting model attempt max_retries) :: t1)
      | (Ret task_id, w1, t1) =>
          match Veo.poll_result py_repr task_id api_key w1 with
          | (r, w2, t2) =>
              (r, w2,
               EvPrint (Submitting model attempt max_retries) :: t1
               ++ EvPrint (TaskCreated model task_id) :: t2)
          end
      end
  end.
Proof.
  unfold Veo.try_block. unfold_m.
  destruct (Dict.getitem payload "model") as [model|e]; simpl; [|reflexivity].
  destruct (Veo.submit_task py_repr payload api_key w) as [[[tid|e] w1] t1];
    simpl; [|reflexivity].
  destruct (Veo.poll_result py_repr tid api_key w1) as [[r w2] t2].
  reflexivity.
Qed.

Lemma veo_try_block_quiet payload api_key max_retries attempt w :
  Forall (fun e => cycle_event e = true)
    (snd (Veo.try_block py_repr payload api_key max_retries attempt w)).
Proof.
  rewrite veo_try_block_cases.
  destruct (Dict.getitem payload "model") as [model|e]; [|constructor].
  destruct (veo_submit_task_spec payload api_key w) as [r [Hs _]].
  rewrite Hs. destruct r as [tid|e]; [|repeat constructor].
  pose proof (veo_poll_result_spec tid api_key (called w)) as Hp.
  destruct (Veo.poll_result py_repr tid api_key (called w)) as [[r w2] t2].
  destruct Hp as [_ [_ [_ [Hq _]]]]. simpl.
  repeat constructor. exact Hq.
Qed.

(** One cycle submits at most once. *)
Lemma veo_try_block_submits payload api_key max_retries attempt w :
  (posts_to Video.GRSAI_VIDEO_URL
     (snd (Veo.try_block py_repr payload api_key max_retries attempt w))
   <= 1)%nat.
Proof.
  rewrite veo_try_block_cases.
  destruct (Dict.getitem payload "model") as [model|e];
    [|unfold posts_to; simpl; lia].
  destruct (veo_submit_task_spec payload api_key w) as [r [Hs _]].
  rewrite Hs. destruct r as [tid|e]; [|unfold posts_to; simpl; lia].
  pose proof (veo_poll_result_spec tid api_key (called w)) as Hp.
  destruct (Veo.poll_result py_repr tid api_key (called w)) as [[r w2] t2].
  destruct Hp as [_ [_ [_ [_ [Hv _]]]]]. simpl.
  rewrite posts_to_print, posts_to_post, posts_to_print, Hv. reflexivity.
Qed.

End VeoFacts.

Section LegacyFacts.

Variable py_repr : json -> string.

Lemma legacy_poll_result_spec task_id api_key w :
  match Legacy.poll_result py_repr task_id api_key w with
  | (r, w', t) =>
      run_spec (TimeoutError Legacy.poll_timeout_msg)
        Legacy.poll_interval legacy_answered
        (poll_failure "unknown failure") (fun _ => True)
        (now w + ticks w Legacy.timeout) w r w' t
  end.
Proof.
  unfold Legacy.poll_result. unfold_m. simpl.
  pose proof (while_before_spec _
                (Legacy.poll_once_advances py_repr task_id api_key)
                (TimeoutError Legacy.poll_timeout_msg)
                Legacy.poll_interval legacy_answered
                (poll_failure "unknown failure") (fun _ => True)
                (legacy_poll_once_spec py_repr task_id api_key)
                (now w + ticks w Legacy.timeout) w) as H.
  destruct (while_before _ _ _ _ w) as [[r w'] t]. exact H.
Qed.

Lemma legacy_submit_task_spec payload api_key w :
  exists r,
    Legacy.submit_task py_repr payload api_key w
    = (r, called w, [EvPost Video.GRSAI_VIDEO_URL payload]).
Proof.
  unfold Legacy.submit_task, Legacy.http_post, called. unfold_m.
  destruct (outcome (net w (calls w))) as [v|code body|reason|m|cls];
    simpl; try (eexists; reflexivity).
  destruct (Dict.get v "code" JNull) as [c|e]; [|eexists; reflexivity].
  destruct (Py.eq_zero c); simpl.
  - destruct (Dict.getitem v "data") as [d|e]; simpl; [|eexists; reflexivity].
    destruct (Dict.getitem d "id"); eexists; reflexivity.
  - destruct (Dict.get v "msg" (JStr "Unknown error"));
      eexists; reflexivity.
Qed.

Lemma legacy_try_block_cases payload api_key max_retries attempt w :
  Legacy.try_block py_repr payload api_key max_retries attempt w =
  match Dict.getitem payload "model" with
  | Raise e => (Raise e, w, [])
  | Ret model =>
      match Legacy.submit_task py_repr payload api_key w with
      | (Raise e, w1, t1) =>
          (Raise e, w1, EvPrint (Submitting model attempt max_retries) :: t1)
      | (Ret task_id, w1, t1) =>
          match Legacy.poll_result py_repr task_id api_key w1 with
          | (r, w2, t2) =>
              (r, w2,
               EvPrint (Submitting model attempt max_retries) :: t1
               ++ EvPrint (TaskCreated model task_id) :: t2)
          end
      end
  end.
Proof.
  unfold Legacy.try_block. unfold_m.
  destruct (Dict.getitem payload "model") as [model|e]; simpl; [|reflexivity].
  destruct (Legacy.submit_task py_repr payload api_key w)
    as [[[tid|e] w1] t1]; simpl; [|reflexivity].
  destruct (Legacy.poll_result py_repr tid api_key w1) as [[r w2] t2].
  reflexivity.
Qed.

Lemma legacy_try_block_quiet payload api_key max_retries attempt w :
  Forall (fun e => cycle_event e = true)
    (snd (Legacy.try_block py_repr payload api_key max_retries attempt w)).
Proof.
  rewrite legacy_try_block_cases.
  destruct (Dict.getitem payload "model") as [model|e]; [|constructor].
  destruct (legacy_submit_task_spec payload api_key w) as [r Hs].
  rewrite Hs. destruct r as [tid|e]; [|repeat constructor].
  pose proof (legacy_poll_result_spec tid api_key (called w)) as Hp.
  destruct (Legacy.poll_result py_repr tid api_key (called w))
    as [[r w2] t2].
  destruct Hp as [_ [_ [_ [Hq _]]]]. simpl.
  repeat constructor. exact Hq.
Qed.

End LegacyFacts.

Section RetrySteps.

Variable try_block : Z -> M json.
Variable max_retries : Z.

Local Abbreviation for_attempts := (Video.for_attempts try_block max_retries).

(** A permanent error ends the loop on the spot. *)
Lemma for_attempts_permanent attempt rest delay last_error w msg w1 t1 :
  try_block attempt w = (Raise (RuntimeError msg), w1, t1) ->
  Video.is_permanent_error msg = true ->
  for_attempts (attempt :: rest) delay last_error w
  = (Raise (RuntimeError msg), w1, t1 ++ [EvPrint (PermanentStop msg)]).
Proof.
  intros Hb Hp. rewrite for_attempts_cons, iteration_cases, Hb. simpl.
  now rewrite Hp.
Qed.

(** A timeout is retried, whatever its message says. *)
Lemma for_attempts_timeout attempt rest delay last_error w msg w1 t1 :
  try_block attempt w = (Raise (TimeoutError msg), w1, t1) ->
  for_attempts (attempt :: rest) delay last_error w =
  if attempt <? max_retries then
    match for_attempts rest (Z.min (delay * 2) 60) (TimeoutError msg)
            (slept delay w1) with
    | (r, w2, t2) =>
        (r, w2,
         t1 ++ [EvPrint (AttemptTimedOut attempt msg);
                EvPrint (Retrying delay); EvSleep BackoffSleep delay] ++ t2)
    end
  else
    match for_attempts rest delay (TimeoutError msg) w1 with
    | (r, w2, t2) =>
        (r, w2, t1 ++ [EvPrint (AttemptTimedOut attempt msg)] ++ t2)
    end.
Proof.
  intros Hb. rewrite for_attempts_cons, iteration_cases, Hb. simpl.
  destruct (attempt <? max_retries).
  - destruct (for_attempts rest _ _ _) as [[r w2] t2].
    now rewrite <- app_assoc.
  - destruct (for_attempts rest _ _ _) as [[r w2] t2].
    now rewrite <- app_assoc.
Qed.

Hypothesis try_block_submits :
  forall attempt w,
    (posts_to Video.GRSAI_VIDEO_URL (snd (try_block attempt w)) <= 1)%nat.

(** No more cycles than attempts in the list. *)
Lemma for_attempts_submits attempts : forall delay last_error w,
  (posts_to Video.GRSAI_VIDEO_URL
     (snd (for_attempts attempts delay last_error w))
   <= List.length attempts)%nat.
Proof.
  induction attempts as [|a rest IH]; intros delay last_error w.
  - simpl. unfold posts_to. simpl. lia.
  - rewrite for_attempts_cons, iteration_cases.
    pose proof (try_block_submits a w) as Hs.
    destruct (try_block a w) as [[[d|e] w1] t1]; simpl in Hs; simpl.
    + lia.
    + destruct (failure_line a e) as [l|].
      * destruct (a <? max_retries).
        -- specialize (IH (Z.min (delay * 2) 60) e (slept delay w1)).
           destruct (for_attempts rest _ _ _) as [[r w2] t2].
           simpl in *. rewrite !posts_to_app.
           rewrite posts_to_print, posts_to_print, posts_to_sleep.
           rewrite ?posts_to_nil. lia.
        -- specialize (IH delay e w1).
           destruct (for_attempts rest _ _ _) as [[r w2] t2].
           simpl in *. rewrite !posts_to_app, posts_to_print.
           rewrite ?posts_to_nil. lia.
      * simpl. rewrite posts_to_app.
        assert (posts_to Video.GRSAI_VIDEO_URL (stop_lines e) = 0%nat).
        { destruct e as [m|m|m|c]; simpl;
            try destruct (Video.is_permanent_error m); reflexivity. }
        lia.
Qed.

End RetrySteps.

(** * The properties *)

(** A stand-in for [repr] in the examples: exact on [None], booleans and
    integers, a placeholder elsewhere. *)
Definition sample_repr (v : json) : string :=
  match v with
  | JNull => "None"
  | JBool true => "True"
  | JBool false => "False"
  | JInt z => PyStr.of_Z z
  | _ => "<object>"
  end.

(** A network whose first answers are [replies] and which then stops
    answering: every later request times out after 45 seconds. *)
Definition scripted (replies : list net_reply) : nat -> net_reply :=
  fun i => nth i replies (Reply 45 (NetTimeout "timed out")).

Definition sample_payload : json :=
  JObj [("model", JStr "veo3.1-fast"); ("prompt", JStr "a red kite");
        ("durationSeconds", JInt 8); ("aspectRatio", JStr "16:9");
        ("webHook", JStr "-1")].

(** The service rejects the request: [{code: 1, msg: "request rejected:
    moderation"}]. *)
Definition rejected_world : world :=
  World 1000 0
    (scripted [Reply 2 (NetBody (JObj [("code", JInt 1);
                 ("msg", JStr "request rejected: moderation")]))]) 1.

(** C1.  A cycle that raises a runtime error whose message contains one
    of the permanent keywords, whatever the case of its letters, ends
    [try_generate] at once: the error is raised again, the world is the
    one the cycle left (no sleep, no further request) and the only thing
    done after the cycle is the line that reports the stop.  This holds
    at the first attempt of [try_generate] and at any later attempt of
    the loop, whatever the remaining budget. *)
Theorem permanent_error_stops_at_once
    py_repr payload api_key max_retries msg kw :
  In kw Video.PERMANENT_KEYWORDS ->
  ci_contains kw msg ->
  (forall attempt rest delay last_error w w1 t1,
     Veo.try_block py_repr payload api_key max_retries attempt w
     = (Raise (RuntimeError msg), w1, t1) ->
     Video.for_attempts (Veo.try_block py_repr payload api_key max_retries)
       max_retries (attempt :: rest) delay last_error w
     = (Raise (RuntimeError msg), w1, t1 ++ [EvPrint (PermanentStop msg)]))
  /\
  (forall w w1 t1,
     1 <= max_retries ->
     Veo.try_block py_repr payload api_key max_retries 1 w
     = (Raise (RuntimeError msg), w1, t1) ->
     Veo.try_generate py_repr payload api_key max_retries w
     = (Raise (RuntimeError msg), w1, t1 ++ [EvPrint (PermanentStop msg)])
     /\ backoff_sleeps (t1 ++ [EvPrint (PermanentStop msg)]) = []
     /\ (posts_to Video.GRSAI_VIDEO_URL
           (t1 ++ [EvPrint (PermanentStop msg)]) <= 1)%nat).
Proof.
  intros Hin Hci.
  assert (Hp : Video.is_permanent_error msg = true).
  { apply is_permanent_error_spec. exists kw. auto. }
  split.
  - intros attempt rest delay last_error w w1 t1 Hb.
    now apply for_attempts_permanent.
  - intros w w1 t1 Hmax Hb.
    pose proof (veo_try_block_quiet py_repr payload api_key max_retries 1 w)
      as Hq.
    pose proof (veo_try_block_submits py_repr payload api_key max_retries 1 w)
      as Hs.
    rewrite Hb in Hq, Hs. simpl in Hq, Hs.
    split; [|split].
    + unfold Veo.try_generate. rewrite range_cons by lia.
      now apply for_attempts_permanent.
    + rewrite backoff_sleeps_app, cycle_no_backoff by assumption.
      reflexivity.
    + rewrite posts_to_app. unfold posts_to at 2. simpl. lia.
Qed.

Lemma permanent_error_stops_at_once_witness :
  Veo.try_generate sample_repr sample_payload "key" 3 rejected_world
  = (Raise (RuntimeError "request rejected: moderation"),
     World 1002 1 (net rejected_world) 1,
     [EvPrint (Submitting (JStr "veo3.1-fast") 1 3);
      EvPost Video.GRSAI_VIDEO_URL sample_payload]
     ++ [EvPrint (PermanentStop "request rejected: moderation")]).
Proof.
  apply (permanent_error_stops_at_once sample_repr sample_payload "key" 3
           "request rejected: moderation" "moderation").
  - simpl. auto.
  - exists "request rejected: ", "". reflexivity.
  - lia.
  - reflexivity.
Defined.

Section RetryBudget.

Variable try_block : Z -> M json.
Variable max_retries : Z.
Hypothesis try_block_quiet :
  forall attempt w, Forall (fun e => cycle_event e = true)
                      (snd (try_block attempt w)).

Local Abbreviation run last_error w :=
  (Video.for_attempts try_block max_retries (range 1 (max_retries + 1)) 5
     last_error w).

(** If every attempt of the budget is reported failed, there are
    [max_retries - 1] backoffs, following the schedule, and the run ends
    by raising the last error right after its report. *)
Lemma run_exhausted last_error w r w' t :
  run last_error w = (r, w', t) ->
  (forall i, 1 <= i <= max_retries -> In i (failed_attempts t)) ->
  backoff_sleeps t = delays 5 (Z.to_nat (max_retries - 1)) /\
  (1 <= max_retries ->
   failed_attempts t = range 1 (max_retries + 1) /\
   exists e l t0,
     r = Raise e /\ failure_line max_retries e = Some l /\
     t = t0 ++ [EvPrint l]).
Proof.
  intros Hrun Hfail.
  destruct (for_attempts_run try_block max_retries try_block_quiet
              _ _ _ _ _ _ _ _ eq_refl Hrun) as [j [Hj [Hf [Hs Hend]]]].
  destruct (Z.le_gt_cases 1 max_retries) as [Hmax|Hmax].
  - assert (Hjm : Z.of_nat j = max_retries).
    { specialize (Hfail max_retries ltac:(lia)). rewrite Hf in Hfail.
      apply range_In in Hfail. lia. }
    split.
    + rewrite Hs. f_equal. lia.
    + intros _. split; [rewrite Hf; f_equal; lia|].
      apply Hend; lia.
  - split; [|lia].
    rewrite Hs. f_equal. lia.
Qed.

End RetryBudget.

(** Attempts 1 and 2 fail on a network that is down, attempt 3 is
    rejected for good. *)
Definition flaky_world : world :=
  World 0 0
    (scripted [Reply 1 (NetURLError "unreachable");
               Reply 1 (NetURLError "unreachable");
               Reply 1 (NetBody (JObj [("code", JInt 1);
                          ("msg", JStr "Invalid prompt")]))]) 1.

(** A network on which every request times out. *)
Definition silent_world : world := World 0 0 (scripted []) 1.

Lemma range_snoc lo hi : lo <= hi -> range lo (hi + 1) = range lo hi ++ [hi].
Proof.
  intros H. unfold range.
  replace (Z.to_nat (hi + 1 - lo)) with (S (Z.to_nat (hi - lo))) by lia.
  rewrite seq_S, map_app. simpl. f_equal. f_equal. lia.
Qed.

Lemma map_seq_shift {A : Type} (f g : nat -> A) n : forall a b,
  (forall i, f (a + i)%nat = g (b + i)%nat) ->
  map f (seq a n) = map g (seq b n).
Proof.
  induction n as [|n IH]; intros a b H; simpl; [reflexivity|].
  f_equal.
  - specialize (H 0%nat). now rewrite !Nat.add_0_r in H.
  - apply IH. intros i. specialize (H (S i)).
    now rewrite !Nat.add_succ_r in H.
Qed.

Lemma range_app lo mid hi :
  lo <= mid <= hi -> range lo hi = range lo mid ++ range mid hi.
Proof.
  intros H. unfold range.
  replace (Z.to_nat (hi - lo))
    with (Z.to_nat (mid - lo) + Z.to_nat (hi - mid))%nat by lia.
  rewrite seq_app, map_app. f_equal.
  apply map_seq_shift. intros i. lia.
Qed.

Lemma failure_line_reports attempt e l :
  failure_line attempt e = Some l -> failed_attempts [EvPrint l] = [attempt].
Proof.
  destruct e as [m|m|m|c]; simpl;
    try destruct (Video.is_permanent_error m);
    intros H; inversion H; reflexivity.
Qed.

(** ** Attempts that fail transiently *)

(** A failure that [try_generate] is to retry: a timeout, or an error
    whose message holds none of the permanent keywords. *)
Definition transient (e : exn) : Prop :=
  match e with
  | TimeoutError _ => True
  | RuntimeError msg | TransientError msg =>
      forall kw, In kw Video.PERMANENT_KEYWORDS -> ~ ci_contains kw msg
  | OtherError _ => False
  end.

(** The cycles of [attempts], the first of them started in [w], all fail
    transiently, whatever the time that passes between the end of one
    cycle and the start of the next. *)
Fixpoint fail_transiently (try_block : Z -> M json) (attempts : list Z)
    (w : world) : Prop :=
  match attempts with
  | [] => True
  | attempt :: rest =>
      exists e,
        fst (fst (try_block attempt w)) = Raise e /\ transient e /\
        forall d, fail_transiently try_block rest
                    (slept d (snd (fst (try_block attempt w))))
  end.

(** In the trace [t], the cycle of attempt [k] fails and is followed by
    the report of its failure, the announcement of the pause and the
    sleep of [d] seconds, and then at once by the cycle of attempt
    [k + 1], started in the world the sleep has left; before the cycle of
    attempt [k] lie the reports of the attempts [1 .. k - 1] and [k - 1]
    sleeps. *)
Definition backoff_between (try_block : Z -> M json) (k d : Z) (t : trace)
    : Prop :=
  exists t0 wk e l t3,
    t = t0 ++ snd (try_block k wk)
           ++ [EvPrint l; EvPrint (Retrying d); EvSleep BackoffSleep d]
           ++ snd (try_block (k + 1) (slept d (snd (fst (try_block k wk)))))
           ++ t3 /\
    fst (fst (try_block k wk)) = Raise e /\
    failure_line k e = Some l /\
    failed_attempts t0 = range 1 k /\
    List.length (backoff_sleeps t0) = Z.to_nat (k - 1).

(** The delay after [n] doublings. *)
Fixpoint doubled (d : Z) (n : nat) : Z :=
  match n with
  | O => d
  | S n' => doubled (Z.min (d * 2) 60) n'
  end.

Lemma delays_snoc d n : delays d (S n) = delays d n ++ [doubled d n].
Proof.
  revert d. induction n as [|n IH]; intros d; [reflexivity|].
  change (delays d (S (S n))) with (d :: delays (Z.min (d * 2) 60) (S n)).
  rewrite IH. reflexivity.
Qed.

Lemma doubled_closed d n :
  0 < d <= 60 -> doubled d n = Z.min (d * 2 ^ Z.of_nat n) 60.
Proof.
  intros Hd.
  pose proof (delays_nth d (S n) n Hd ltac:(lia)) as H.
  rewrite delays_snoc, nth_error_app2 in H by (rewrite delays_length; lia).
  rewrite delays_length, Nat.sub_diag in H. simpl in H. congruence.
Qed.

Lemma not_permanent_transient msg :
  Video.is_permanent_error msg = false ->
  forall kw, In kw Video.PERMANENT_KEYWORDS -> ~ ci_contains kw msg.
Proof.
  intros Hp kw Hin Hc.
  assert (H : Video.is_permanent_error msg = true)
    by (apply is_permanent_error_spec; eauto).
  congruence.
Qed.

Lemma transient_failure_line attempt e :
  transient e -> exists l, failure_line attempt e = Some l.
Proof.
  assert (Hnp : forall msg,
            (forall kw, In kw Video.PERMANENT_KEYWORDS ->
                        ~ ci_contains kw msg) ->
            Video.is_permanent_error msg = false).
  { intros msg H. destruct (Video.is_permanent_error msg) eqn:Hp; auto.
    apply is_permanent_error_spec in Hp. destruct Hp as [kw [Hin Hc]].
    destruct (H kw Hin Hc). }
  destruct e as [m|m|m|c]; simpl; intros H.
  - rewrite (Hnp m H). eauto.
  - rewrite (Hnp m H). eauto.
  - eauto.
  - destruct H.
Qed.

Lemma fail_transiently_app try_block l1 l2 : forall w,
  fail_transiently try_block (l1 ++ l2) w -> fail_transiently try_block l1 w.
Proof.
  induction l1 as [|a l1 IH]; intros w H; simpl in *; [exact I|].
  destruct H as [e [He [Ht Hrest]]]. exists e. auto.
Qed.

(** Cycles that fail transiently in every world of a set that the cycles
    and the pauses do not leave. *)
Lemma fail_transiently_always try_block (P : world -> Prop) :
  (forall attempt w, P w ->
     exists e,
       fst (fst (try_block attempt w)) = Raise e /\ transient e /\
       forall d, P (slept d (snd (fst (try_block attempt w))))) ->
  forall attempts w, P w -> fail_transiently try_block attempts w.
Proof.
  intros Hstep attempts.
  induction attempts as [|a rest IH]; intros w Hw; simpl; [exact I|].
  destruct (Hstep a w Hw) as [e [He [Ht Hd]]].
  exists e. split; [exact He|]. split; [exact Ht|].
  intros d. apply IH, Hd.
Qed.

Section RetryFailing.

Variable try_block : Z -> M json.
Variable max_retries : Z.
Hypothesis try_block_quiet :
  forall attempt w, Forall (fun e => cycle_event e = true)
                      (snd (try_block attempt w)).

Local Abbreviation for_attempts := (Video.for_attempts try_block max_retries).
Local Abbreviation run last_error w :=
  (Video.for_attempts try_block max_retries (range 1 (max_retries + 1)) 5
     last_error w).

(** The trace of the loop starts with the cycle of its first attempt. *)
Lemma for_attempts_head attempt rest delay last_error w :
  exists t3,
    snd (for_attempts (attempt :: rest) delay last_error w)
    = snd (try_block attempt w) ++ t3.
Proof.
  rewrite for_attempts_cons, iteration_cases.
  destruct (try_block attempt w) as [[[d|e] w1] t1]; simpl.
  - exists []. now rewrite app_nil_r.
  - destruct (failure_line attempt e) as [l|]; [|eauto].
    destruct (attempt <? max_retries).
    + destruct (for_attempts rest _ e (slept delay w1)) as [[r w2] t2].
      simpl. rewrite <- app_assoc. eauto.
    + destruct (for_attempts rest delay e w1) as [[r w2] t2].
      simpl. rewrite <- app_assoc. eauto.
Qed.

(** One pass over a cycle that fails transiently. *)
Lemma iteration_transient attempt delay w e :
  fst (fst (try_block attempt w)) = Raise e -> transient e ->
  exists l,
    failure_line attempt e = Some l /\
    Video.iteration try_block max_retries attempt delay w
    = if attempt <? max_retries then
        (Ret (Video.Next (Z.min (delay * 2) 60) e),
         slept delay (snd (fst (try_block attempt w))),
         snd (try_block attempt w)
         ++ [EvPrint l; EvPrint (Retrying delay); EvSleep BackoffSleep delay])
      else
        (Ret (Video.Next delay e), snd (fst (try_block attempt w)),
         snd (try_block attempt w) ++ [EvPrint l]).
Proof.
  intros He Ht.
  destruct (transient_failure_line attempt e Ht) as [l Hl].
  exists l. split; [exact Hl|].
  rewrite iteration_cases.
  destruct (try_block attempt w) as [[r w1] t1]. simpl in *. subst r.
  rewrite Hl. reflexivity.
Qed.

(** [n] attempts that fail transiently and are not the last ones of the
    budget: each is reported and followed by a sleep, the delays follow
    the schedule, and the loop goes on with the attempts that are
    left. *)
Lemma for_attempts_failing n : forall a delay last_error w more rest,
  a + Z.of_nat n <= max_retries ->
  fail_transiently try_block (range a (a + Z.of_nat n) ++ more) w ->
  exists t0 w0 e0,
    for_attempts (range a (a + Z.of_nat n) ++ rest) delay last_error w
    = (let '(r, w', t) := for_attempts rest (doubled delay n) e0 w0 in
       (r, w', t0 ++ t)) /\
    failed_attempts t0 = range a (a + Z.of_nat n) /\
    backoff_sleeps t0 = delays delay n /\
    fail_transiently try_block more w0.
Proof.
  induction n as [|n IH]; intros a delay last_error w more rest Hmax Hfail.
  - rewrite range_nil in * by lia. simpl in *.
    exists [], w, last_error.
    destruct (for_attempts rest delay last_error w) as [[r w'] t]. auto.
  - rewrite range_cons in * by lia.
    replace (a + Z.of_nat (S n)) with (a + 1 + Z.of_nat n) in * by lia.
    simpl app in *. destruct Hfail as [e [He [Ht Hrest]]].
    destruct (iteration_transient a delay w e He Ht) as [l [Hl Hit]].
    replace (a <? max_retries) with true in Hit
      by (symmetry; apply Z.ltb_lt; lia).
    destruct (IH (a + 1) (Z.min (delay * 2) 60) e
                (slept delay (snd (fst (try_block a w)))) more rest
                ltac:(lia) (Hrest delay))
      as [t0 [w0 [e0 [Hrun [Hf [Hs Hmore]]]]]].
    exists (snd (try_block a w)
            ++ [EvPrint l; EvPrint (Retrying delay);
                EvSleep BackoffSleep delay] ++ t0), w0, e0.
    split; [|split; [|split]].
    + rewrite for_attempts_cons, Hit, Hrun. simpl doubled.
      destruct (for_attempts rest _ e0 w0) as [[r w'] t].
      now rewrite <- !app_assoc.
    + rewrite !failed_attempts_app, Hf.
      rewrite (cycle_no_failure _ (try_block_quiet a w)).
      change [EvPrint l; EvPrint (Retrying delay); EvSleep BackoffSleep delay]
        with ([EvPrint l] ++ [EvPrint (Retrying delay);
                              EvSleep BackoffSleep delay]).
      rewrite failed_attempts_app, (failure_line_reports _ _ _ Hl).
      reflexivity.
    + rewrite !backoff_sleeps_app, Hs.
      rewrite (cycle_no_backoff _ (try_block_quiet a w)).
      destruct l; reflexivity.
    + exact Hmore.
Qed.

(** If the cycles of the attempts [1 .. k] fail transiently and attempt
    [k + 1] is within the budget, the sleep that follows attempt [k] is
    the [k]-th one, lasts [min (5 * 2^(k-1)) 60] seconds and is followed
    at once by the cycle of attempt [k + 1]. *)
Lemma run_backoff_between last_error w k :
  1 <= k < max_retries ->
  fail_transiently try_block (range 1 (k + 1)) w ->
  backoff_between try_block k (Z.min (5 * 2 ^ (k - 1)) 60)
    (snd (run last_error w)) /\
  nth_error (backoff_sleeps (snd (run last_error w))) (Z.to_nat (k - 1))
  = Some (Z.min (5 * 2 ^ (k - 1)) 60).
Proof.
  intros Hk Hfail.
  set (n := Z.to_nat (k - 1)).
  assert (Hsplit : range 1 (max_retries + 1)
                   = range 1 (1 + Z.of_nat n)
                     ++ k :: (k + 1) :: range (k + 2) (max_retries + 1)).
  { replace (1 + Z.of_nat n) with k by lia.
    rewrite (range_app 1 k (max_retries + 1)) by lia.
    rewrite (range_cons k) by lia. rewrite (range_cons (k + 1)) by lia.
    replace (k + 1 + 1) with (k + 2) by lia. reflexivity. }
  assert (Hpre : range 1 (k + 1) = range 1 (1 + Z.of_nat n) ++ [k]).
  { replace (1 + Z.of_nat n) with k by lia. apply range_snoc. lia. }
  rewrite Hpre in Hfail. rewrite Hsplit. clear Hsplit Hpre.
  destruct (for_attempts_failing n 1 5 last_error w [k]
              (k :: (k + 1) :: range (k + 2) (max_retries + 1))
              ltac:(lia) Hfail)
    as [t0 [w0 [e0 [Hrun [Hf [Hs Hmore]]]]]].
  rewrite Hrun. clear Hrun.
  destruct Hmore as [e [He [Ht _]]].
  destruct (iteration_transient k (doubled 5 n) w0 e He Ht) as [l [Hl Hit]].
  replace (k <? max_retries) with true in Hit
    by (symmetry; apply Z.ltb_lt; lia).
  assert (Hd : doubled 5 n = Z.min (5 * 2 ^ (k - 1)) 60).
  { rewrite doubled_closed by lia. unfold n. f_equal. f_equal. f_equal. lia. }
  rewrite Hd in *.
  set (d := Z.min (5 * 2 ^ (k - 1)) 60) in *.
  rewrite for_attempts_cons, Hit.
  destruct (for_attempts_head (k + 1) (range (k + 2) (max_retries + 1))
              (Z.min (d * 2) 60) e
              (slept d (snd (fst (try_block k w0))))) as [t3 Ht3].
  destruct (for_attempts ((k + 1) :: _) (Z.min (d * 2) 60) e
              (slept d (snd (fst (try_block k w0))))) as [[r w'] t].
  simpl in Ht3. subst t. simpl snd.
  split.
  - exists t0, w0, e, l, t3.
    split; [now rewrite <- !app_assoc|].
    split; [exact He|]. split; [exact Hl|].
    split; [rewrite Hf; f_equal; lia|].
    rewrite Hs. apply delays_length.
  - rewrite !backoff_sleeps_app, Hs.
    rewrite (cycle_no_backoff _ (try_block_quiet k w0)).
    rewrite nth_error_app2 by (rewrite delays_length; lia).
    rewrite delays_length, Nat.sub_diag.
    destruct l; reflexivity.
Qed.

(** If the cycles of all the attempts fail transiently, the sleeps are
    those of the schedule, one after each attempt but the last, and the
    error of the last cycle is raised right after its report, in the
    world that cycle has left. *)
Lemma run_all_failing last_error w :
  fail_transiently try_block (range 1 (max_retries + 1)) w ->
  backoff_sleeps (snd (run last_error w))
  = delays 5 (Z.to_nat (max_retries - 1)) /\
  (1 <= max_retries ->
   exists t0 w_last e l,
     fst (fst (try_block max_retries w_last)) = Raise e /\
     failure_line max_retries e = Some l /\
     run last_error w
     = (Raise e, snd (fst (try_block max_retries w_last)),
        t0 ++ snd (try_block max_retries w_last) ++ [EvPrint l])).
Proof.
  intros Hfail.
  destruct (Z.le_gt_cases 1 max_retries) as [Hmax|Hmax].
  - set (n := Z.to_nat (max_retries - 1)).
    assert (Hsplit : range 1 (max_retries + 1)
                     = range 1 (1 + Z.of_nat n) ++ [max_retries]).
    { replace (1 + Z.of_nat n) with max_retries by lia.
      apply range_snoc. lia. }
    rewrite Hsplit in *. clear Hsplit.
    destruct (for_attempts_failing n 1 5 last_error w [max_retries]
                [max_retries] ltac:(lia) Hfail)
      as [t0 [w0 [e0 [Hrun [Hf [Hs Hmore]]]]]].
    rewrite Hrun. clear Hrun.
    destruct Hmore as [e [He [Ht _]]].
    destruct (iteration_transient max_retries (doubled 5 n) w0 e He Ht)
      as [l [Hl Hit]].
    rewrite Z.ltb_irrefl in Hit.
    rewrite for_attempts_cons, Hit. simpl.
    rewrite app_nil_r. split.
    + rewrite !backoff_sleeps_app, Hs.
      rewrite (cycle_no_backoff _ (try_block_quiet max_retries w0)).
      destruct l; simpl; now rewrite app_nil_r.
    + intros _. exists t0, w0, e, l. auto.
  - rewrite range_nil by lia. simpl. split; [|lia].
    replace (Z.to_nat (max_retries - 1)) with 0%nat by lia. reflexivity.
Qed.

End RetryFailing.

(** A network that is down: every request fails to connect. *)
Definition down_world : world :=
  World 0 0 (fun _ => Reply 1 (NetURLError "unreachable")) 1.

(** On a network that is down every cycle of [veo3-1] fails transiently,
    with the error [http_post] makes of the connection failure. *)
Lemma down_fail_transiently max_retries attempts :
  fail_transiently (Veo.try_block sample_repr sample_payload "key" max_retries)
    attempts down_world.
Proof.
  apply (fail_transiently_always _ (fun w => net w = net down_world));
    [|reflexivity].
  intros attempt w Hw.
  exists (RuntimeError
    ("Network error connecting to " +:+ Video.GRSAI_VIDEO_URL
     +:+ ": unreachable")).
  assert (Hrun : Veo.try_block sample_repr sample_payload "key" max_retries
                   attempt w
                 = (Raise (RuntimeError
                      ("Network error connecting to " +:+ Video.GRSAI_VIDEO_URL
                       +:+ ": unreachable")),
                    called w,
                    [EvPrint (Submitting (JStr "veo3.1-fast") attempt
                                max_retries);
                     EvPost Video.GRSAI_VIDEO_URL sample_payload])).
  { unfold Veo.try_block, Veo.submit_task, Veo.http_post, called. unfold_m.
    rewrite Hw. reflexivity. }
  rewrite Hrun. simpl.
  split; [reflexivity|]. split; [|intros d; exact Hw].
  apply not_permanent_transient. reflexivity.
Qed.

(** On a network that does not answer every cycle of [veo3.1] fails
    transiently, with the timeout of the request. *)
Lemma silent_fail_transiently max_retries attempts :
  fail_transiently
    (Legacy.try_block sample_repr sample_payload "key" max_retries)
    attempts silent_world.
Proof.
  apply (fail_transiently_always _ (fun w => net w = net silent_world));
    [|reflexivity].
  intros attempt w Hw.
  exists (TimeoutError "timed out").
  assert (Hrun : Legacy.try_block sample_repr sample_payload "key" max_retries
                   attempt w
                 = (Raise (TimeoutError "timed out"), called w,
                    [EvPrint (Submitting (JStr "veo3.1-fast") attempt
                                max_retries);
                     EvPost Video.GRSAI_VIDEO_URL sample_payload])).
  { unfold Legacy.try_block, Legacy.submit_task, Legacy.http_post, called.
    unfold_m. rewrite Hw. unfold silent_world, scripted. simpl.
    destruct (calls w) as [|c]; reflexivity. }
  rewrite Hrun. simpl.
  split; [reflexivity|]. split; [exact I|intros d; exact Hw].
Qed.

(** C2.  In every run of [try_generate], of either copy of the video
    client, in which the cycles of the attempts [1 .. k] fail
    transiently (a timeout, or an error without a permanent keyword) and
    attempt [k + 1] is within the budget: the cycle of attempt [k] is
    followed by the report of its failure and by a sleep of
    [min (5 * 2^(k-1)) 60] seconds, which is the [k]-th sleep between
    attempts of the run and after which the cycle of attempt [k + 1]
    starts at once. *)
Theorem backoff_delay_schedule py_repr payload api_key max_retries w k :
  1 <= k < max_retries ->
  (fail_transiently (Veo.try_block py_repr payload api_key max_retries)
     (range 1 (k + 1)) w ->
   backoff_between (Veo.try_block py_repr payload api_key max_retries) k
     (Z.min (5 * 2 ^ (k - 1)) 60)
     (snd (Veo.try_generate py_repr payload api_key max_retries w))
   /\
   nth_error
     (backoff_sleeps
        (snd (Veo.try_generate py_repr payload api_key max_retries w)))
     (Z.to_nat (k - 1))
   = Some (Z.min (5 * 2 ^ (k - 1)) 60))
  /\
  (fail_transiently (Legacy.try_block py_repr payload api_key max_retries)
     (range 1 (k + 1)) w ->
   backoff_between (Legacy.try_block py_repr payload api_key max_retries) k
     (Z.min (5 * 2 ^ (k - 1)) 60)
     (snd (Legacy.try_generate py_repr payload api_key max_retries w))
   /\
   nth_error
     (backoff_sleeps
        (snd (Legacy.try_generate py_repr payload api_key max_retries w)))
     (Z.to_nat (k - 1))
   = Some (Z.min (5 * 2 ^ (k - 1)) 60)).
Proof.
  intros Hk. split; intros Hfail.
  - apply run_backoff_between; auto.
    intros attempt w0. apply veo_try_block_quiet.
  - apply run_backoff_between; auto.
    intros attempt w0. apply legacy_try_block_quiet.
Qed.

Lemma backoff_delay_schedule_witness :
  backoff_between (Veo.try_block sample_repr sample_payload "key" 3) 2 10
    (snd (Veo.try_generate sample_repr sample_payload "key" 3 down_world))
  /\
  backoff_between (Legacy.try_block sample_repr sample_payload "key" 3) 2 10
    (snd (Legacy.try_generate sample_repr sample_payload "key" 3
            silent_world)).
Proof.
  split.
  - apply (proj1 (backoff_delay_schedule sample_repr sample_payload "key" 3
                    down_world 2 ltac:(lia))).
    apply down_fail_transiently.
  - apply (proj2 (backoff_delay_schedule sample_repr sample_payload "key" 3
                    silent_world 2 ltac:(lia))).
    apply silent_fail_transiently.
Defined.

(** C9.  When the cycles of all the attempts of the budget fail
    transiently, [try_generate], in either copy, sleeps between attempts
    [max_retries - 1] times, with the delays of the schedule; the sleep
    after attempt [k] is there for every [k] below [max_retries] and is
    followed at once by the cycle of attempt [k + 1]; and the run ends
    with the cycle of the last attempt, the report of its failure and the
    raise of its error, in the world that cycle has left: nothing is
    slept after the last attempt. *)
Theorem backoff_only_between_attempts
    py_repr payload api_key max_retries w :
  (fail_transiently (Veo.try_block py_repr payload api_key max_retries)
     (range 1 (max_retries + 1)) w ->
   List.length
     (backoff_sleeps
        (snd (Veo.try_generate py_repr payload api_key max_retries w)))
   = Z.to_nat (max_retries - 1)
   /\
   backoff_sleeps
     (snd (Veo.try_generate py_repr payload api_key max_retries w))
   = delays 5 (Z.to_nat (max_retries - 1))
   /\
   (forall k, 1 <= k < max_retries ->
      backoff_between (Veo.try_block py_repr payload api_key max_retries) k
        (Z.min (5 * 2 ^ (k - 1)) 60)
        (snd (Veo.try_generate py_repr payload api_key max_retries w)))
   /\
   (1 <= max_retries ->
    exists t0 w_last e l,
      fst (fst (Veo.try_block py_repr payload api_key max_retries
                  max_retries w_last)) = Raise e /\
      failure_line max_retries e = Some l /\
      Veo.try_generate py_repr payload api_key max_retries w
      = (Raise e,
         snd (fst (Veo.try_block py_repr payload api_key max_retries
                     max_retries w_last)),
         t0 ++ snd (Veo.try_block py_repr payload api_key max_retries
                      max_retries w_last)
            ++ [EvPrint l])))
  /\
  (fail_transiently (Legacy.try_block py_repr payload api_key max_retries)
     (range 1 (max_retries + 1)) w ->
   List.length
     (backoff_sleeps
        (snd (Legacy.try_generate py_repr payload api_key max_retries w)))
   = Z.to_nat (max_retries - 1)
   /\
   backoff_sleeps
     (snd (Legacy.try_generate py_repr payload api_key max_retries w))
   = delays 5 (Z.to_nat (max_retries - 1))
   /\
   (forall k, 1 <= k < max_retries ->
      backoff_between (Legacy.try_block py_repr payload api_key max_retries) k
        (Z.min (5 * 2 ^ (k - 1)) 60)
        (snd (Legacy.try_generate py_repr payload api_key max_retries w)))
   /\
   (1 <= max_retries ->
    exists t0 w_last e l,
      fst (fst (Legacy.try_block py_repr payload api_key max_retries
                  max_retries w_last)) = Raise e /\
      failure_line max_retries e = Some l /\
      Legacy.try_generate py_repr payload api_key max_retries w
      = (Raise e,
         snd (fst (Legacy.try_block py_repr payload api_key max_retries
                     max_retries w_last)),
         t0 ++ snd (Legacy.try_block py_repr payload api_key max_retries
                      max_retries w_last)
            ++ [EvPrint l]))).
Proof.
  split; intros Hfail.
  - destruct (run_all_failing _ max_retries
                (fun attempt w0 =>
                   veo_try_block_quiet py_repr payload api_key max_retries
                     attempt w0)
                (RuntimeError "No attempts made") w Hfail) as [Hs Hend].
    split; [unfold Veo.try_generate; rewrite Hs; apply delays_length|].
    split; [exact Hs|]. split; [|exact Hend].
    intros k Hk.
    apply run_backoff_between; auto.
    + intros attempt w0. apply veo_try_block_quiet.
    + apply fail_transiently_app with (l2 := range (k + 1) (max_retries + 1)).
      rewrite <- range_app by lia. exact Hfail.
  - destruct (run_all_failing _ max_retries
                (fun attempt w0 =>
                   legacy_try_block_quiet py_repr payload api_key max_retries
                     attempt w0)
                (RuntimeError "no attempts made") w Hfail) as [Hs Hend].
    split; [unfold Legacy.try_generate; rewrite Hs; apply delays_length|].
    split; [exact Hs|]. split; [|exact Hend].
    intros k Hk.
    apply run_backoff_between; auto.
    + intros attempt w0. apply legacy_try_block_quiet.
    + apply fail_transiently_app with (l2 := range (k + 1) (max_retries + 1)).
      rewrite <- range_app by lia. exact Hfail.
Qed.

Lemma backoff_only_between_attempts_witness :
  backoff_sleeps
    (snd (Veo.try_generate sample_repr sample_payload "key" 3 down_world))
  = [5; 10]
  /\
  backoff_sleeps
    (snd (Legacy.try_generate sample_repr sample_payload "key" 3
            silent_world))
  = [5; 10].
Proof.
  split.
  - apply (proj1 (backoff_only_between_attempts sample_repr sample_payload
                    "key" 3 down_world)).
    apply down_fail_transiently.
  - apply (proj2 (backoff_only_between_attempts sample_repr sample_payload
                    "key" 3 silent_world)).
    apply silent_fail_transiently.
Defined.


Lemma timed_out_is_failed i m t :
  In (EvPrint (AttemptTimedOut i m)) t -> In i (failed_attempts t).
Proof.
  intros H. unfold failed_attempts. apply in_flat_map.
  exists (EvPrint (AttemptTimedOut i m)). split; [exact H | simpl; auto].
Qed.

Lemma failure_line_failed attempt e l :
  failure_line attempt e = Some l -> failed_attempts [EvPrint l] = [attempt].
Proof.
  destruct e as [m|m|m|c]; simpl;
    try destruct (Video.is_permanent_error m);
    intros H; inversion H; reflexivity.
Qed.

Lemma failure_line_timed_out attempt e n m :
  failure_line attempt e = Some (AttemptTimedOut n m) -> e = TimeoutError m.
Proof.
  destruct e as [m'|m'|m'|c]; simpl;
    try destruct (Video.is_permanent_error m');
    intros H; inversion H; reflexivity.
Qed.

Section RetryTimeouts.

Variable try_block : Z -> M json.
Variable max_retries : Z.
Hypothesis try_block_quiet :
  forall attempt w, Forall (fun e => cycle_event e = true)
                      (snd (try_block attempt w)).

(** If every attempt of the budget is reported timed out, the run raises
    the timeout of the last attempt, right after its report, having slept
    the whole schedule. *)
Lemma run_all_timed_out last_error w r w' t :
  Video.for_attempts try_block max_retries (range 1 (max_retries + 1)) 5
    last_error w = (r, w', t) ->
  1 <= max_retries ->
  (forall i, 1 <= i <= max_retries ->
     exists m, In (EvPrint (AttemptTimedOut i m)) t) ->
  exists m t0,
    r = Raise (TimeoutError m) /\
    t = t0 ++ [EvPrint (AttemptTimedOut max_retries m)] /\
    backoff_sleeps t = delays 5 (Z.to_nat (max_retries - 1)).
Proof.
  intros Hrun Hmax Hall.
  assert (Hfail : forall i, 1 <= i <= max_retries -> In i (failed_attempts t)).
  { intros i Hi. destruct (Hall i Hi) as [m Hm].
    now apply timed_out_is_failed with (m := m). }
  destruct (run_exhausted try_block max_retries try_block_quiet
              _ _ _ _ _ Hrun Hfail) as [Hs Hend].
  destruct (Hend Hmax) as [Hf [e [l [t0 [Hr [Hl Ht]]]]]].
  destruct (Hall max_retries ltac:(lia)) as [m Hm].
  assert (Hlast : l = AttemptTimedOut max_retries m).
  { rewrite Ht in Hm. apply in_app_or in Hm. destruct Hm as [Hm|Hm].
    - exfalso. apply timed_out_is_failed in Hm.
      rewrite Ht, failed_attempts_app in Hf.
      rewrite (failure_line_failed _ _ _ Hl) in Hf.
      rewrite range_snoc in Hf by lia.
      apply app_inj_tail in Hf. destruct Hf as [Hf _].
      rewrite Hf in Hm. apply range_In in Hm. lia.
    - destruct Hm as [Hm|[]]. now inversion Hm. }
  subst l. apply failure_line_timed_out in Hl. subst e.
  exists m, t0. auto.
Qed.

End RetryTimeouts.

(** C4.  A cycle that raises [TimeoutError] is retried whatever its
    message says (the keyword test is not applied to it): while an
    attempt is left the loop reports the timeout, sleeps the current
    delay and goes on with the doubled delay, capped at 60; at the last
    attempt of the budget it reports the timeout and goes to the final
    [raise].  When every attempt of the budget times out, [try_generate]
    raises the timeout of the last attempt, after the whole backoff
    schedule. *)
Theorem timeout_is_retried_then_raised
    py_repr payload api_key max_retries :
  (forall attempt rest delay last_error w msg w1 t1,
     Veo.try_block py_repr payload api_key max_retries attempt w
     = (Raise (TimeoutError msg), w1, t1) ->
     Video.for_attempts (Veo.try_block py_repr payload api_key max_retries)
       max_retries (attempt :: rest) delay last_error w =
     if attempt <? max_retries then
       match Video.for_attempts
               (Veo.try_block py_repr payload api_key max_retries)
               max_retries rest (Z.min (delay * 2) 60) (TimeoutError msg)
               (slept delay w1) with
       | (r, w2, t2) =>
           (r, w2,
            t1 ++ [EvPrint (AttemptTimedOut attempt msg);
                   EvPrint (Retrying delay); EvSleep BackoffSleep delay]
            ++ t2)
       end
     else
       match Video.for_attempts
               (Veo.try_block py_repr payload api_key max_retries)
               max_retries rest delay (TimeoutError msg) w1 with
       | (r, w2, t2) =>
           (r, w2, t1 ++ [EvPrint (AttemptTimedOut attempt msg)] ++ t2)
       end)
  /\
  (forall w r w' t,
     Veo.try_generate py_repr payload api_key max_retries w = (r, w', t) ->
     1 <= max_retries ->
     (forall i, 1 <= i <= max_retries ->
        exists m, In (EvPrint (AttemptTimedOut i m)) t) ->
     exists m t0,
       r = Raise (TimeoutError m) /\
       t = t0 ++ [EvPrint (AttemptTimedOut max_retries m)] /\
       backoff_sleeps t = delays 5 (Z.to_nat (max_retries - 1))).
Proof.
  split.
  - intros attempt rest delay last_error w msg w1 t1 Hb.
    now apply for_attempts_timeout.
  - intros w r w' t Hrun Hmax Hall. unfold Veo.try_generate in Hrun.
    apply (run_all_timed_out _ _
             (fun attempt w0 =>
                veo_try_block_quiet py_repr payload api_key max_retries
                  attempt w0)
             _ _ _ _ _ Hrun Hmax Hall).
Qed.

(** The poller never sees a terminal status: the task is accepted and
    every status request is answered "running" after 25 seconds. *)
Definition stuck_world : world :=
  World 0 0
    (fun i =>
       match i with
       | O | 21%nat | 42%nat =>
           Reply 1 (NetBody (JObj [("code", JInt 0);
                      ("data", JObj [("id", JStr "invalid-7")])]))
       | _ =>
           Reply 25 (NetBody (JObj [("code", JInt 0);
                       ("data", JObj [("status", JStr "running");
                                      ("progress", JInt 10)])]))
       end) 1.

Lemma run_triple {A B C : Type} (x : A * B * C) :
  x = (fst (fst x), snd (fst x), snd x).
Proof. destruct x as [[a b] c]. reflexivity. Qed.

Ltac find_event := repeat (first [left; reflexivity | right]).

Lemma timeout_is_retried_then_raised_witness :
  exists m t0,
    fst (fst (Veo.try_generate sample_repr sample_payload "key" 3 stuck_world))
    = Raise (TimeoutError m) /\
    snd (Veo.try_generate sample_repr sample_payload "key" 3 stuck_world)
    = t0 ++ [EvPrint (AttemptTimedOut 3 m)] /\
    backoff_sleeps
      (snd (Veo.try_generate sample_repr sample_payload "key" 3 stuck_world))
    = delays 5 (Z.to_nat (3 - 1)) /\
    Video.is_permanent_error m = true.
Proof.
  destruct (timeout_is_retried_then_raised sample_repr sample_payload "key" 3)
    as [_ H].
  destruct (H stuck_world _ _ _
              (run_triple (Veo.try_generate sample_repr sample_payload "key" 3
                             stuck_world)))
    as [m [t0 [Hr [Ht Hs]]]].
  - lia.
  - intros i Hi. assert (Hc : i = 1 \/ i = 2 \/ i = 3) by lia.
    exists "Generation timed out after 600s (task: invalid-7)".
    destruct Hc as [->|[->| ->]]; vm_compute; find_event.
  - exists m, t0. split; [exact Hr|]. split; [exact Ht|]. split; [exact Hs|].
    vm_compute in Hr. inversion Hr. reflexivity.
Defined.

(** * The retry wrapper of the chat client *)

Lemma gemini_iteration_posts payload api_key attempt delay w :
  posts_to Gemini.GRSAI_CHAT_URL
    (snd (Gemini.iteration payload api_key attempt delay w)) = 1%nat.
Proof.
  unfold Gemini.iteration, Gemini.http_post. unfold_m.
  destruct (outcome (net w (calls w))) as [v|code body|reason|m|cls]; simpl;
    repeat match goal with
           | |- context [if ?b then _ else _] => destruct b; simpl
           end;
    rewrite ?posts_to_post; reflexivity.
Qed.

Lemma gemini_for_attempts_posts payload api_key attempts :
  forall delay last_error w,
    (posts_to Gemini.GRSAI_CHAT_URL
       (snd (Gemini.for_attempts payload api_key attempts delay last_error w))
     <= List.length attempts)%nat.
Proof.
  induction attempts as [|a rest IH]; intros delay last_error w.
  - simpl. rewrite posts_to_nil. lia.
  - simpl. unfold bind.
    pose proof (gemini_iteration_posts payload api_key a delay w) as Hp.
    destruct (Gemini.iteration payload api_key a delay w)
      as [[[[response|delay' e]|e] w1] t1]; simpl in *.
    + unfold ret. rewrite app_nil_r. lia.
    + specialize (IH delay' e w1).
      destruct (Gemini.for_attempts payload api_key rest delay' e w1)
        as [[r w2] t2]. simpl in *.
      rewrite posts_to_app. lia.
    + lia.
Qed.

(** C7.  [try_generate] submits at most [max_retries] times, whatever the
    network answers and whatever errors occur (none at all when
    [max_retries] is not positive); [query_with_retry] sends at most
    [MAX_RETRIES = 3] requests. *)
Theorem attempts_within_budget py_repr payload api_key max_retries w :
  (posts_to Video.GRSAI_VIDEO_URL
     (snd (Veo.try_generate py_repr payload api_key max_retries w))
   <= Z.to_nat max_retries)%nat
  /\
  (posts_to Gemini.GRSAI_CHAT_URL
     (snd (Gemini.query_with_retry payload api_key w))
   <= 3)%nat.
Proof.
  split.
  - unfold Veo.try_generate.
    replace (Z.to_nat max_retries)
      with (List.length (range 1 (max_retries + 1)))
      by (rewrite range_length; f_equal; lia).
    apply for_attempts_submits.
    intros attempt w0. apply veo_try_block_submits.
  - unfold Gemini.query_with_retry.
    change 3%nat with (List.length (range 1 (Gemini.MAX_RETRIES + 1))).
    apply gemini_for_attempts_posts.
Qed.

(** * The poller: return, failure, deadline *)

Section RunFacts.

Variable on_deadline : exn.
Variable interval : Z.
Variable answered : net_reply -> json -> json -> json -> Prop.
Variable failure : json -> exn.
Variable pass_error : exn -> Prop.

Local Abbreviation spec :=
  (run_spec on_deadline interval answered failure pass_error).

Lemma not_terminal_in rounds p st :
  Forall (fun a : json * json => terminal (snd a) = false) rounds ->
  In (p, st) rounds -> terminal st = false.
Proof.
  intros Hall Hin. rewrite Forall_forall in Hall.
  apply (Hall (p, st) Hin).
Qed.


(** What it returns is the payload of the answer that showed
    ["succeeded"], the last one; every status seen before was not
    terminal. *)
Lemma run_spec_payload deadline w data w' t :
  spec deadline w (Ret data) w' t ->
  exists rounds p,
    observed t = rounds ++ [(p, JStr "succeeded")] /\
    Forall (fun a => terminal (snd a) = false) rounds /\
    answered (net w (Nat.pred (calls w'))) data p (JStr "succeeded").
Proof.
  intros [_ [_ [_ [_ [_ [rounds [Hrounds [_ [_ [p [Hobs [_ Hans]]]]]]]]]]]].
  exists rounds, p. auto.
Qed.

(** A ["failed"] status ends the loop with the exception made from the
    payload that showed it. *)
Lemma run_spec_failed deadline w r w' t p :
  spec deadline w r w' t ->
  In (p, JStr "failed") (observed t) ->
  exists data,
    r = Raise (failure data) /\
    answered (net w (Nat.pred (calls w'))) data p (JStr "failed").
Proof.
  intros [_ [_ [_ [_ [_ [rounds [Hrounds [_ [_ Hres]]]]]]]]] Hin.
  assert (Hno : ~ In (p, JStr "failed") rounds).
  { intros H. apply (not_terminal_in _ _ _ Hrounds) in H. discriminate. }
  destruct r as [d|e].
  - destruct Hres as [p' [Hobs _]]. rewrite Hobs in Hin.
    apply in_app_or in Hin. destruct Hin as [Hin|[Hin|[]]];
      [contradiction | discriminate].
  - destruct Hres as [[_ [Hobs _]] | [_ [_ [Hobs | [p' [d [Hobs [Hans He]]]]]]]];
      rewrite Hobs in Hin; try contradiction.
    apply in_app_or in Hin. destruct Hin as [Hin|[Hin|[]]];
      [contradiction|].
    inversion Hin; subst. exists d. auto.
Qed.

End RunFacts.


(** The scenario of the specification: the task is accepted as ["T1"],
    the first status is pending at 40%, the second is ["succeeded"]. *)
Definition happy_world : world :=
  World 0 0
    (scripted
       [Reply 1 (NetBody (JObj [("code", JInt 0);
                   ("data", JObj [("id", JStr "T1")])]));
        Reply 1 (NetBody (JObj [("code", JInt 0);
                   ("data", JObj [("status", JStr "pending");
                                  ("progress", JInt 40)])]));
        Reply 1 (NetBody (JObj [("code", JInt 0);
                   ("data", JObj [("status", JStr "succeeded");
                                  ("progress", JInt 100);
                                  ("url", JStr "https://x/video.mp4");
                                  ("credits_cost", JInt 5)])]))]) 1.

Example happy_path :
  fst (fst (Veo.try_generate sample_repr sample_payload "key" 3 happy_world))
  = Ret (JObj [("status", JStr "succeeded"); ("progress", JInt 100);
               ("url", JStr "https://x/video.mp4");
               ("credits_cost", JInt 5)])
  /\ now (snd (fst (Veo.try_generate sample_repr sample_payload "key" 3
                      happy_world))) = 8.
Proof. split; reflexivity. Qed.

(** The field [k] of a payload as a string: [""] when it is absent,
    nothing when it holds something else than a string. *)
Definition text_field (data : json) (k : string) : option string :=
  match Dict.get data k (JStr "") with
  | Ret (JStr s) => Some s
  | _ => None
  end.

(** The message for a failed task: the two fields joined by a space and
    stripped, [fallback] when nothing is left. *)
Definition failure_message (fallback failure_reason error : string) : string :=
  let reason := PyStr.strip (failure_reason +:+ " " +:+ error) in
  if PyStr.nonempty reason then reason else fallback.

Lemma text_field_get data k s :
  text_field data k = Some s -> Dict.get data k (JStr "") = Ret (JStr s).
Proof.
  unfold text_field. destruct (Dict.get data k (JStr "")) as [[]|];
    congruence.
Qed.

Lemma poll_failure_message fallback data fr er :
  text_field data "failure_reason" = Some fr ->
  text_field data "error" = Some er ->
  poll_failure fallback data = RuntimeError (failure_message fallback fr er).
Proof.
  intros Hfr Her. unfold poll_failure.
  rewrite (text_field_get _ _ _ Hfr), (text_field_get _ _ _ Her).
  reflexivity.
Qed.

(** The task failed and the service gives no reason. *)
Definition failed_world : world :=
  World 0 0
    (scripted [Reply 1 (NetBody (JObj [("code", JInt 0);
                 ("data", JObj [("status", JStr "failed")])]))]) 1.

(** The task failed with a reason and an error. *)
Definition failed_with_reason_world : world :=
  World 0 0
    (scripted [Reply 1 (NetBody (JObj [("code", JInt 0);
                 ("data", JObj [("status", JStr "failed");
                                ("failure_reason", JStr " quota ");
                                ("error", JStr "E42 ")])]))]) 1.

(** C3, as stated, fails on [veo3-1]: with a ["failed"] status and no
    reason at all the message is not ["unknown failure"]. *)
Lemma failed_message_counterexample :
  let run := Veo.poll_result sample_repr (JStr "T1") "key" failed_world in
  In (JInt 0, JStr "failed") (observed (snd run)) /\
  PyStr.strip ("" +:+ " " +:+ "") = "" /\
  fst (fst run) = Raise (RuntimeError "Generation failed with unknown reason") /\
  fst (fst run) <> Raise (RuntimeError "unknown failure").
Proof.
  vm_compute. split; [auto|]. split; [reflexivity|].
  split; [reflexivity | discriminate].
Qed.

(** C3, amended.  When a status request of [poll_result] sees the status
    ["failed"], [poll_result] raises the exception made from the payload
    of that answer, the last one; when the fields [failure_reason] and
    [error] are strings or absent, it is a [RuntimeError] whose message
    is the two fields joined by a space and stripped, and, when nothing
    is left, ["Generation failed with unknown reason"] in [veo3-1] and
    ["unknown failure"] in [veo3.1]. *)
Theorem failed_status_message py_repr task_id api_key w p :
  (In (p, JStr "failed")
      (observed (snd (Veo.poll_result py_repr task_id api_key w))) ->
   exists data,
     veo_answered
       (net w
          (Nat.pred
             (calls (snd (fst (Veo.poll_result py_repr task_id api_key w))))))
       data p (JStr "failed") /\
     forall fr er,
       text_field data "failure_reason" = Some fr ->
       text_field data "error" = Some er ->
       fst (fst (Veo.poll_result py_repr task_id api_key w))
       = Raise (RuntimeError
                  (failure_message "Generation failed with unknown reason"
                     fr er)))
  /\
  (In (p, JStr "failed")
      (observed (snd (Legacy.poll_result py_repr task_id api_key w))) ->
   exists data,
     legacy_answered
       (net w
          (Nat.pred
             (calls (snd (fst (Legacy.poll_result py_repr task_id api_key w))))))
       data p (JStr "failed") /\
     forall fr er,
       text_field data "failure_reason" = Some fr ->
       text_field data "error" = Some er ->
       fst (fst (Legacy.poll_result py_repr task_id api_key w))
       = Raise (RuntimeError (failure_message "unknown failure" fr er))).
Proof.
  split.
  - pose proof (veo_poll_result_spec py_repr task_id api_key w) as H.
    destruct (Veo.poll_result py_repr task_id api_key w) as [[r w'] t].
    simpl. intros Hin.
    destruct (run_spec_failed _ _ _ _ _ _ _ _ _ _ _ H Hin)
      as [data [-> Hans]].
    exists data. split; [exact Hans|].
    intros fr er Hfr Her. f_equal. now apply poll_failure_message.
  - pose proof (legacy_poll_result_spec py_repr task_id api_key w) as H.
    destruct (Legacy.poll_result py_repr task_id api_key w) as [[r w'] t].
    simpl. intros Hin.
    destruct (run_spec_failed _ _ _ _ _ _ _ _ _ _ _ H Hin)
      as [data [-> Hans]].
    exists data. split; [exact Hans|].
    intros fr er Hfr Her. f_equal. now apply poll_failure_message.
Qed.

Lemma failed_status_message_witness :
  fst (fst (Veo.poll_result sample_repr (JStr "T1") "key"
              failed_with_reason_world))
  = Raise (RuntimeError "quota  E42")
  /\
  fst (fst (Legacy.poll_result sample_repr (JStr "T1") "key" failed_world))
  = Raise (RuntimeError "unknown failure").
Proof.
  split.
  - destruct (failed_status_message sample_repr (JStr "T1") "key"
                failed_with_reason_world (JInt 0)) as [H _].
    destruct H as [data [Hans Hmsg]].
    + vm_compute. auto.
    + destruct Hans as [v [code [Hv [_ [_ [Hd _]]]]]].
      vm_compute in Hv. inversion Hv; subst v. vm_compute in Hd.
      inversion Hd; subst data.
      apply (Hmsg " quota " "E42 "); reflexivity.
  - destruct (failed_status_message sample_repr (JStr "T1") "key"
                failed_world (JInt 0)) as [_ H].
    destruct H as [data [Hans Hmsg]].
    + vm_compute. auto.
    + destruct Hans as [v [code [Hv [_ [_ [Hd _]]]]]].
      vm_compute in Hv. inversion Hv; subst v. vm_compute in Hd.
      inversion Hd; subst data.
      apply (Hmsg "" ""); reflexivity.
Defined.

Section DeadlineFacts.

Variable on_deadline : exn.
Variable interval : Z.
Variable answered : net_reply -> json -> json -> json -> Prop.
Variable failure : json -> exn.
Variable pass_error : exn -> Prop.
Hypothesis pass_error_other : forall e, pass_error e -> e <> on_deadline.



End DeadlineFacts.




(** * Further properties of the clients *)

(** ** The keyword test *)

Lemma lower_app a b : PyStr.lower (a +:+ b) = PyStr.lower a +:+ PyStr.lower b.
Proof. induction a as [|c a IH]; simpl; [reflexivity | now rewrite IH]. Qed.

Lemma lower_char_idem c : PyStr.lower_char (PyStr.lower_char c) = PyStr.lower_char c.
Proof.
  destruct c as [[] [] [] [] [] [] [] []]; reflexivity.
Qed.

Lemma lower_idem s : PyStr.lower (PyStr.lower s) = PyStr.lower s.
Proof.
  induction s as [|c s IH]; simpl; [reflexivity|].
  now rewrite lower_char_idem, IH.
Qed.

Lemma append_assoc a b c : (a +:+ b) +:+ c = a +:+ b +:+ c.
Proof.
  induction a as [|x a IH]; [reflexivity|].
  change (String x ((a +:+ b) +:+ c) = String x (a +:+ b +:+ c)).
  now rewrite IH.
Qed.

Lemma ci_contains_app kw pre msg post :
  ci_contains kw msg -> ci_contains kw (pre +:+ msg +:+ post).
Proof.
  intros [a [b H]]. unfold ci_contains.
  exists (PyStr.lower pre +:+ a), (b +:+ PyStr.lower post).
  rewrite !lower_app, H, !append_assoc. reflexivity.
Qed.

Lemma is_permanent_error_app pre msg post :
  Video.is_permanent_error msg = true ->
  Video.is_permanent_error (pre +:+ msg +:+ post) = true.
Proof.
  intros H. apply is_permanent_error_spec in H. destruct H as [kw [Hin Hc]].
  apply is_permanent_error_spec. exists kw. split; [exact Hin|].
  now apply ci_contains_app.
Qed.

(** The keyword test looks at the letters only up to case, and a message
    stays permanent whatever text is put around it: an error text quoted
    inside a longer message keeps its class. *)
Theorem permanent_error_wrapping pre msg post :
  Video.is_permanent_error (PyStr.lower msg) = Video.is_permanent_error msg
  /\ (Video.is_permanent_error msg = true ->
      Video.is_permanent_error (pre +:+ msg +:+ post) = true).
Proof.
  split.
  - unfold Video.is_permanent_error. now rewrite lower_idem.
  - apply is_permanent_error_app.
Qed.

(** ** Errors of the submit request *)

Lemma append_nil_r s : s +:+ "" = s.
Proof.
  induction s as [|x s IH]; [reflexivity|].
  change (String x (s +:+ "") = String x s). now rewrite IH.
Qed.

(** What [http_post] of [veo3-1] raises for an HTTP error: a
    [RuntimeError] whose message ends with the body of the answer. *)
Lemma veo_http_error_raised py_repr payload api_key w code body :
  outcome (net w (calls w)) = NetHTTPError code body ->
  exists prefix,
    Veo.submit_task py_repr payload api_key w
    = (Raise (RuntimeError (prefix +:+ body)), called w,
       [EvPost Video.GRSAI_VIDEO_URL payload]) /\
    (code = 401 -> Video.is_permanent_error prefix = true).
Proof.
  intros Ho. unfold Veo.submit_task, Veo.http_post, called. unfold_m.
  rewrite Ho. simpl.
  destruct (code =? 401) eqn:E401; simpl.
  { eexists. split; [reflexivity | intros; reflexivity]. }
  apply Z.eqb_neq in E401.
  destruct (code =? 429); simpl.
  { eexists. split; [reflexivity | intros; contradiction]. }
  destruct (500 <=? code); simpl.
  - exists ("Server error (HTTP " +:+ PyStr.of_Z code +:+ "): ").
    split; [|intros; contradiction].
    now rewrite !append_assoc.
  - exists ("HTTP " +:+ PyStr.of_Z code +:+ ": ").
    split; [|intros; contradiction].
    now rewrite !append_assoc.
Qed.

(** The key is refused, the service is down with an "invalid" state. *)
Definition unauthorized_world : world :=
  World 0 0 (scripted [Reply 1 (NetHTTPError 401 "bad key")]) 1.

Definition confusing_outage_world : world :=
  World 0 0 (scripted [Reply 1 (NetHTTPError 503 "Invalid upstream state")]) 1.

(** An HTTP 401 on the submit request, and any HTTP error whose body text
    holds one of the permanent keywords (a 5xx or 429 included), ends
    [try_generate] of [veo3-1] after that single request, without sleep:
    the class of the HTTP error does not count, its text does. *)
Theorem http_error_text_decides
    py_repr payload api_key max_retries w code body model :
  1 <= max_retries ->
  Dict.getitem payload "model" = Ret model ->
  outcome (net w (calls w)) = NetHTTPError code body ->
  code = 401 \/ Video.is_permanent_error body = true ->
  exists prefix,
    Veo.try_generate py_repr payload api_key max_retries w
    = (Raise (RuntimeError (prefix +:+ body)), called w,
       [EvPrint (Submitting model 1 max_retries);
        EvPost Video.GRSAI_VIDEO_URL payload;
        EvPrint (PermanentStop (prefix +:+ body))]).
Proof.
  intros Hmax Hmodel Ho Hperm.
  destruct (veo_http_error_raised py_repr payload api_key w code body Ho)
    as [prefix [Hs H401]].
  exists prefix.
  assert (Hp : Video.is_permanent_error (prefix +:+ body) = true).
  { destruct Hperm as [Hc|Hb].
    - apply (is_permanent_error_app "" prefix body). auto.
    - rewrite <- (append_nil_r body).
      now apply is_permanent_error_app. }
  unfold Veo.try_generate. rewrite range_cons by lia.
  rewrite (for_attempts_permanent _ _ _ _ _ _ _ (prefix +:+ body) (called w)
             [EvPrint (Submitting model 1 max_retries);
              EvPost Video.GRSAI_VIDEO_URL payload]); auto.
  rewrite veo_try_block_cases, Hmodel, Hs. reflexivity.
Qed.

Lemma http_error_text_decides_witness :
  (exists prefix,
     Veo.try_generate sample_repr sample_payload "key" 3 unauthorized_world
     = (Raise (RuntimeError (prefix +:+ "bad key")),
        called unauthorized_world,
        [EvPrint (Submitting (JStr "veo3.1-fast") 1 3);
         EvPost Video.GRSAI_VIDEO_URL sample_payload;
         EvPrint (PermanentStop (prefix +:+ "bad key"))]))
  /\
  (exists prefix,
     Veo.try_generate sample_repr sample_payload "key" 3
       confusing_outage_world
     = (Raise (RuntimeError (prefix +:+ "Invalid upstream state")),
        called confusing_outage_world,
        [EvPrint (Submitting (JStr "veo3.1-fast") 1 3);
         EvPost Video.GRSAI_VIDEO_URL sample_payload;
         EvPrint (PermanentStop (prefix +:+ "Invalid upstream state"))])).
Proof.
  split.
  - apply (http_error_text_decides sample_repr sample_payload "key" 3
             unauthorized_world 401 "bad key" (JStr "veo3.1-fast"));
      [lia | reflexivity | reflexivity | left; reflexivity].
  - apply (http_error_text_decides sample_repr sample_payload "key" 3
             confusing_outage_world 503 "Invalid upstream state"
             (JStr "veo3.1-fast"));
      [lia | reflexivity | reflexivity | right; reflexivity].
Defined.

(** The network is unreachable for the first request. *)
Definition offline_world : world :=
  World 0 0 (scripted [Reply 3 (NetURLError "Name or service not known")]) 1.

(** A connection error on the submit request: [veo3.1], whose [http_post]
    has no handler, lets the [URLError] through [try_generate], which
    catches runtime and timeout errors only, so nothing is retried;
    [veo3-1] turns it into a [RuntimeError], reports the attempt as
    failed, sleeps 5 seconds and goes on with attempt 2, unless the
    reason holds a permanent keyword. *)
Theorem connection_error_retried_in_one_copy
    py_repr payload api_key max_retries w reason model :
  1 < max_retries ->
  Dict.getitem payload "model" = Ret model ->
  outcome (net w (calls w)) = NetURLError reason ->
  Video.is_permanent_error
    ("Network error connecting to " +:+ Video.GRSAI_VIDEO_URL +:+ ": "
     +:+ reason) = false ->
  Legacy.try_generate py_repr payload api_key max_retries w
  = (Raise (OtherError "URLError"), called w,
     [EvPrint (Submitting model 1 max_retries);
      EvPost Video.GRSAI_VIDEO_URL payload])
  /\
  exists r w2 t2,
    Veo.try_generate py_repr payload api_key max_retries w
    = (r, w2,
       [EvPrint (Submitting model 1 max_retries);
        EvPost Video.GRSAI_VIDEO_URL payload;
        EvPrint (AttemptFailed 1
                   ("Network error connecting to " +:+ Video.GRSAI_VIDEO_URL
                    +:+ ": " +:+ reason));
        EvPrint (Retrying 5); EvSleep BackoffSleep 5] ++ t2) /\
    Video.for_attempts (Veo.try_block py_repr payload api_key max_retries)
      max_retries (range 2 (max_retries + 1)) 10
      (RuntimeError ("Network error connecting to " +:+ Video.GRSAI_VIDEO_URL
                     +:+ ": " +:+ reason))
      (slept 5 (called w))
    = (r, w2, t2).
Proof.
  intros Hmax Hmodel Ho Hperm. split.
  - unfold Legacy.try_generate. rewrite range_cons by lia.
    rewrite for_attempts_cons, iteration_cases, legacy_try_block_cases, Hmodel.
    unfold Legacy.submit_task, Legacy.http_post. unfold_m.
    rewrite Ho. reflexivity.
  - unfold Veo.try_generate. rewrite range_cons by lia.
    rewrite for_attempts_cons, iteration_cases, veo_try_block_cases, Hmodel.
    unfold Veo.submit_task, Veo.http_post. unfold_m.
    rewrite Ho. simpl. rewrite Hperm.
    replace (1 <? max_retries) with true by (symmetry; apply Z.ltb_lt; lia).
    change (1 + 1) with 2. change (Z.min (5 * 2) 60) with 10.
    destruct (Video.for_attempts _ _ (range 2 (max_retries + 1)) 10 _ _)
      as [[r w2] t2] eqn:Hrest.
    exists r, w2, t2. split; reflexivity.
Qed.

Lemma connection_error_retried_in_one_copy_witness :
  Legacy.try_generate sample_repr sample_payload "key" 3 offline_world
  = (Raise (OtherError "URLError"), called offline_world,
     [EvPrint (Submitting (JStr "veo3.1-fast") 1 3);
      EvPost Video.GRSAI_VIDEO_URL sample_payload]).
Proof.
  apply (connection_error_retried_in_one_copy sample_repr sample_payload "key"
           3 offline_world "Name or service not known" (JStr "veo3.1-fast"));
    [lia | reflexivity | reflexivity | reflexivity].
Defined.

(** ** Edge cases of the retry loop *)

(** With a budget that is not positive no attempt is made: nothing is
    sent, printed or slept, and the initial [last_error] is raised. *)
Theorem no_budget_no_attempt py_repr payload api_key max_retries w :
  max_retries <= 0 ->
  Veo.try_generate py_repr payload api_key max_retries w
  = (Raise (RuntimeError "No attempts made"), w, [])
  /\
  Legacy.try_generate py_repr payload api_key max_retries w
  = (Raise (RuntimeError "no attempts made"), w, []).
Proof.
  intros H. unfold Veo.try_generate, Legacy.try_generate.
  rewrite range_nil by lia. split; reflexivity.
Qed.

Lemma no_budget_no_attempt_witness :
  Veo.try_generate sample_repr sample_payload "key" 0 happy_world
  = (Raise (RuntimeError "No attempts made"), happy_world, []).
Proof.
  apply (no_budget_no_attempt sample_repr sample_payload "key" 0 happy_world).
  lia.
Defined.

(** A payload without a ["model"] entry (or that is not a dict) makes the
    first attempt raise [KeyError] (or [TypeError]) before anything is
    sent; neither [except] clause catches it, so [try_generate] is left
    at once, with no request, no line and no sleep. *)
Theorem missing_model_sends_nothing py_repr payload api_key max_retries w e :
  1 <= max_retries ->
  Dict.getitem payload "model" = Raise e ->
  (e = OtherError "KeyError" \/ e = OtherError "TypeError") /\
  Veo.try_generate py_repr payload api_key max_retries w = (Raise e, w, []) /\
  Legacy.try_generate py_repr payload api_key max_retries w = (Raise e, w, []).
Proof.
  intros Hmax Hmodel.
  pose proof (getitem_raise _ _ _ Hmodel) as He.
  split; [exact He|].
  unfold Veo.try_generate, Legacy.try_generate.
  rewrite range_cons by lia.
  rewrite !for_attempts_cons, !iteration_cases.
  rewrite veo_try_block_cases, legacy_try_block_cases, Hmodel.
  destruct He as [-> | ->]; split; reflexivity.
Qed.

Lemma missing_model_sends_nothing_witness :
  Veo.try_generate sample_repr (JObj [("prompt", JStr "a red kite")]) "key" 3
    happy_world
  = (Raise (OtherError "KeyError"), happy_world, []).
Proof.
  apply (missing_model_sends_nothing sample_repr
           (JObj [("prompt", JStr "a red kite")]) "key" 3 happy_world
           (OtherError "KeyError")); [lia | reflexivity].
Defined.

(** ** What [try_generate] returns *)

Section RetryReturns.

Variable try_block : Z -> M json.
Variable max_retries : Z.
Variable good : json -> Prop.
Hypothesis try_block_good :
  forall attempt w data w1 t1,
    try_block attempt w = (Ret data, w1, t1) -> good data.

(** What the loop returns was returned by one of its cycles. *)
Lemma for_attempts_returns attempts :
  forall delay last_error w data w' t,
    Video.for_attempts try_block max_retries attempts delay last_error w
    = (Ret data, w', t) ->
    good data.
Proof.
  induction attempts as [|a rest IH]; intros delay last_error w data w' t H.
  - simpl in H. unfold raise in H. discriminate.
  - rewrite for_attempts_cons, iteration_cases in H.
    destruct (try_block a w) as [[[d|e] w1] t1] eqn:Hb.
    + inversion H; subst. eapply try_block_good. exact Hb.
    + destruct (failure_line a e) as [l|]; [|discriminate].
      destruct (a <? max_retries).
      * destruct (Video.for_attempts try_block max_retries rest
                    (Z.min (delay * 2) 60) e (slept delay w1))
          as [[r w2] t2] eqn:Hrest.
        inversion H; subst. eapply IH. exact Hrest.
      * destruct (Video.for_attempts try_block max_retries rest delay e w1)
          as [[r w2] t2] eqn:Hrest.
        inversion H; subst. eapply IH. exact Hrest.
Qed.

End RetryReturns.

(** Whatever the network does, a payload returned by [try_generate], in
    either copy, shows the status ["succeeded"]: a pending or failed
    payload is never handed to the caller. *)
Theorem returned_payload_succeeded
    py_repr payload api_key max_retries w data w' t :
  Veo.try_generate py_repr payload api_key max_retries w = (Ret data, w', t)
  \/ Legacy.try_generate py_repr payload api_key max_retries w
     = (Ret data, w', t) ->
  Dict.get data "status" JNull = Ret (JStr "succeeded").
Proof.
  intros [H|H].
  - unfold Veo.try_generate in H.
    apply (for_attempts_returns _ _
             (fun d => Dict.get d "status" JNull = Ret (JStr "succeeded")))
      in H; [exact H|].
    clear. intros attempt w data w1 t1 Hb.
    rewrite veo_try_block_cases in Hb.
    destruct (Dict.getitem payload "model") as [model|e]; [|discriminate].
    destruct (Veo.submit_task py_repr payload api_key w)
      as [[[tid|e] w0] t0]; [|discriminate].
    pose proof (veo_poll_result_spec py_repr tid api_key w0) as Hp.
    destruct (Veo.poll_result py_repr tid api_key w0) as [[r w2] t2].
    inversion Hb; subst.
    destruct (run_spec_payload _ _ _ _ _ _ _ _ _ _ Hp)
      as [rounds [p [_ [_ [v [c [_ [_ [_ [_ [Hst _]]]]]]]]]]].
    exact Hst.
  - unfold Legacy.try_generate in H.
    apply (for_attempts_returns _ _
             (fun d => Dict.get d "status" JNull = Ret (JStr "succeeded")))
      in H; [exact H|].
    clear. intros attempt w data w1 t1 Hb.
    rewrite legacy_try_block_cases in Hb.
    destruct (Dict.getitem payload "model") as [model|e]; [|discriminate].
    destruct (Legacy.submit_task py_repr payload api_key w)
      as [[[tid|e] w0] t0]; [|discriminate].
    pose proof (legacy_poll_result_spec py_repr tid api_key w0) as Hp.
    destruct (Legacy.poll_result py_repr tid api_key w0) as [[r w2] t2].
    inversion Hb; subst.
    destruct (run_spec_payload _ _ _ _ _ _ _ _ _ _ Hp)
      as [rounds [p [_ [_ [v [c [_ [_ [_ [_ [Hst _]]]]]]]]]]].
    exact Hst.
Qed.

Lemma returned_payload_succeeded_witness :
  Dict.get
    (JObj [("status", JStr "succeeded"); ("progress", JInt 100);
           ("url", JStr "https://x/video.mp4"); ("credits_cost", JInt 5)])
    "status" JNull
  = Ret (JStr "succeeded").
Proof.
  apply (returned_payload_succeeded sample_repr sample_payload "key" 3
           happy_world _
           (snd (fst (Veo.try_generate sample_repr sample_payload "key" 3
                        happy_world)))
           (snd (Veo.try_generate sample_repr sample_payload "key" 3
                   happy_world))).
  left. reflexivity.
Defined.

(** ** Bounds on the poller *)

Section PollBounds.

Variable body : M (option json).
Hypothesis body_again :
  forall w w1 t1, body w = (Ret None, w1, t1) -> now w < now w1.
Variable on_deadline : exn.
Variable interval : Z.
Variable answered : net_reply -> json -> json -> json -> Prop.
Variable failure : json -> exn.
Variable pass_error : exn -> Prop.
Hypothesis interval_positive : 0 < interval.
Hypothesis body_spec :
  forall w r w1 t1,
    body w = (r, w1, t1) ->
    pass_spec interval answered failure pass_error w r w1 t1.

(** Every request is started before the deadline and two requests are at
    least [interval] seconds apart. *)
Lemma while_before_bounds deadline L w :
  (forall i, Z.of_N (latency (net w i)) <= L) ->
  match while_before body body_again on_deadline deadline w with
  | (r, w', t) =>
      ticks w interval * Z.of_nat (posts_to Video.GRSAI_RESULT_URL t)
      <= Z.max 0 (deadline - now w) + (ticks w interval - 1) /\
      now w' <= Z.max (now w) (deadline - 1 + L + ticks w interval)
  end.
Proof.
  apply (while_before_run_ind body body_again on_deadline
           (fun w out =>
              (forall i, Z.of_N (latency (net w i)) <= L) ->
              match out with
              | (r, w', t) =>
                  ticks w interval
                  * Z.of_nat (posts_to Video.GRSAI_RESULT_URL t)
                  <= Z.max 0 (deadline - now w) + (ticks w interval - 1) /\
                  now w' <= Z.max (now w) (deadline - 1 + L + ticks w interval)
              end)); clear w.
  - intros w Hnow HL. rewrite posts_to_nil.
    assert (0 < ticks w interval) by (unfold ticks; lia). lia.
  - intros w d w1 t1 Hlt Hb HL.
    assert (0 < ticks w interval) by (unfold ticks; lia).
    destruct (body_spec _ _ _ _ Hb) as [_ [_ [_ [_ [_ [Hr [_ [_ Hnow]]]]]]]].
    rewrite Hr, Hnow. specialize (HL (calls w)). lia.
  - intros w e w1 t1 Hlt Hb HL.
    assert (0 < ticks w interval) by (unfold ticks; lia).
    destruct (body_spec _ _ _ _ Hb)
      as [_ [_ [_ [_ [_ [Hr [_ [_ [_ Hnow]]]]]]]]].
    rewrite Hr, Hnow. specialize (HL (calls w)). lia.
  - intros w w1 t1 r w2 t2 Hlt Hb Hrec IH HL.
    assert (Hpos : 0 < ticks w interval) by (unfold ticks; lia).
    destruct (body_spec _ _ _ _ Hb)
      as [Hnet [Hhz [_ [_ [_ [Hr [_ [_ Hnow]]]]]]]].
    assert (HL1 : forall i, Z.of_N (latency (net w1 i)) <= L)
      by (intros i; rewrite Hnet; apply HL).
    assert (Ht : ticks w1 interval = ticks w interval)
      by (unfold ticks; now rewrite Hhz).
    destruct (IH HL1) as [Hposts Hend]. rewrite Ht in Hposts, Hend.
    rewrite posts_to_app, Hr.
    pose proof (HL (calls w)) as Hl0.
    assert (0 <= Z.of_N (latency (net w (calls w)))) by lia.
    split; [|lia].
    destruct (Z.le_gt_cases (now w1) deadline) as [Hle|Hgt].
    + rewrite Z.max_r in Hposts by lia. rewrite Z.max_r by lia. nia.
    + rewrite Z.max_l in Hposts by lia. rewrite Z.max_r by lia.
      assert (Z.of_nat (posts_to Video.GRSAI_RESULT_URL t2) = 0) by nia.
      nia.
Qed.

End PollBounds.

(** A service that answers every status request after half a second
    with a task that is still running; the clock ticks twice a second. *)
Definition half_second_world : world :=
  World 0 0
    (fun _ => Reply 1 (NetBody (JObj [("code", JInt 0);
                ("data", JObj [("status", JStr "running")])])))
    2.

(** [poll_result], in either copy, sends at most 120 status requests, and
    when no request takes more than [L] ticks of the clock it is over
    less than 605 seconds and [L] ticks after it started: its last
    request starts before the deadline of 600 seconds, and may be
    followed by one more sleep of 5 seconds. *)
Theorem poll_result_bounded py_repr task_id api_key w L :
  (forall i, Z.of_N (latency (net w i)) <= L) ->
  ((posts_to Video.GRSAI_RESULT_URL
      (snd (Veo.poll_result py_repr task_id api_key w)) <= 120)%nat /\
   now (snd (fst (Veo.poll_result py_repr task_id api_key w))) - now w
   < ticks w (600 + 5) + L)
  /\
  ((posts_to Video.GRSAI_RESULT_URL
      (snd (Legacy.poll_result py_repr task_id api_key w)) <= 120)%nat /\
   now (snd (fst (Legacy.poll_result py_repr task_id api_key w))) - now w
   < ticks w (600 + 5) + L).
Proof.
  intros HL.
  assert (0 <= L) by (specialize (HL 0%nat); lia).
  split.
  - pose proof (while_before_bounds _
                  (Veo.poll_once_again py_repr task_id api_key)
                  (TimeoutError (Veo.poll_timeout_msg py_repr task_id))
                  Veo.POLL_INTERVAL veo_answered
                  (poll_failure "Generation failed with unknown reason")
                  (fun e => e <> TimeoutError
                                   (Veo.poll_timeout_msg py_repr task_id))
                  ltac:(reflexivity)
                  (veo_poll_once_spec py_repr task_id api_key)
                  (now w + ticks w Veo.POLL_TIMEOUT) L w HL) as Hb.
    unfold Veo.poll_result. unfold_m. simpl.
    destruct (while_before _ _ _ _ w) as [[r w'] t]. simpl.
    unfold Veo.POLL_INTERVAL, Veo.POLL_TIMEOUT, ticks in *.
    destruct Hb as [Hposts Hend].
    assert (Hh : 0 < Z.pos (hz w)) by lia.
    split; [nia | lia].
  - pose proof (while_before_bounds _
                  (Legacy.poll_once_advances py_repr task_id api_key)
                  (TimeoutError Legacy.poll_timeout_msg)
                  Legacy.poll_interval legacy_answered
                  (poll_failure "unknown failure") (fun _ => True)
                  ltac:(reflexivity)
                  (legacy_poll_once_spec py_repr task_id api_key)
                  (now w + ticks w Legacy.timeout) L w HL) as Hb.
    unfold Legacy.poll_result. unfold_m. simpl.
    destruct (while_before _ _ _ _ w) as [[r w'] t]. simpl.
    unfold Legacy.poll_interval, Legacy.timeout, ticks in *.
    destruct Hb as [Hposts Hend].
    assert (Hh : 0 < Z.pos (hz w)) by lia.
    split; [nia | lia].
Qed.

Lemma poll_result_bounded_witness :
  (posts_to Video.GRSAI_RESULT_URL
     (snd (Veo.poll_result sample_repr (JStr "T1") "key" half_second_world))
   <= 120)%nat /\
  now (snd (fst (Veo.poll_result sample_repr (JStr "T1") "key"
                   half_second_world)))
  - now half_second_world < ticks half_second_world (600 + 5) + 1.
Proof.
  apply (poll_result_bounded sample_repr (JStr "T1") "key"
           half_second_world 1).
  intros i. simpl. lia.
Defined.

(** ** Bounds on the backoff *)

Lemma delays_between d n :
  5 <= d <= 60 -> Forall (fun x => 5 <= x <= 60) (delays d n).
Proof.
  revert d. induction n as [|n IH]; intros d Hd; simpl; constructor.
  - exact Hd.
  - apply IH. lia.
Qed.

(** [try_generate], in either copy, never sleeps less than 5 or more than
    60 seconds between two attempts, and sleeps at most
    [max_retries - 1] times, whatever happens in the cycles. *)
Theorem backoff_delays_bounded py_repr payload api_key max_retries w :
  (Forall (fun d => 5 <= d <= 60)
     (backoff_sleeps
        (snd (Veo.try_generate py_repr payload api_key max_retries w))) /\
   (List.length
      (backoff_sleeps
         (snd (Veo.try_generate py_repr payload api_key max_retries w)))
    <= Z.to_nat (max_retries - 1))%nat)
  /\
  (Forall (fun d => 5 <= d <= 60)
     (backoff_sleeps
        (snd (Legacy.try_generate py_repr payload api_key max_retries w))) /\
   (List.length
      (backoff_sleeps
         (snd (Legacy.try_generate py_repr payload api_key max_retries w)))
    <= Z.to_nat (max_retries - 1))%nat).
Proof.
  split.
  - destruct (Veo.try_generate py_repr payload api_key max_retries w)
      as [[r w'] t] eqn:Hrun.
    unfold Veo.try_generate in Hrun. simpl.
    destruct (for_attempts_run _ _
                (fun attempt w0 =>
                   veo_try_block_quiet py_repr payload api_key max_retries
                     attempt w0)
                _ _ _ _ _ _ _ _ eq_refl Hrun) as [j [_ [_ [Hs _]]]].
    rewrite Hs. split; [apply delays_between; lia|].
    rewrite delays_length. lia.
  - destruct (Legacy.try_generate py_repr payload api_key max_retries w)
      as [[r w'] t] eqn:Hrun.
    unfold Legacy.try_generate in Hrun. simpl.
    destruct (for_attempts_run _ _
                (fun attempt w0 =>
                   legacy_try_block_quiet py_repr payload api_key max_retries
                     attempt w0)
                _ _ _ _ _ _ _ _ eq_refl Hrun) as [j [_ [_ [Hs _]]]].
    rewrite Hs. split; [apply delays_between; lia|].
    rewrite delays_length. lia.
Qed.

(** ** The retry policy of the chat client *)

(** The failures [http_post] of [query_gemini.py] raises as
    [TransientError]: HTTP 429, HTTP 5xx, connection errors, timeouts. *)
Definition gemini_transient (o : net_outcome) : bool :=
  match o with
  | NetHTTPError code _ => (code =? 429) || (500 <=? code)
  | NetURLError _ => true
  | NetTimeout _ => true
  | _ => false
  end.

Lemma gemini_http_post_transient url data api_key w :
  gemini_transient (outcome (net w (calls w))) = true ->
  exists m,
    Gemini.http_post url data api_key w
    = (Raise (TransientError m), called w, [EvPost url data]).
Proof.
  unfold Gemini.http_post, called. unfold_m.
  destruct (outcome (net w (calls w))) as [v|code body|reason|m|cls]; simpl;
    try discriminate; try (eexists; reflexivity).
  intros H.
  destruct (code =? 401) eqn:E401.
  { apply Z.eqb_eq in E401. subst code. discriminate. }
  destruct (code =? 429); simpl; [eexists; reflexivity|].
  simpl in H. rewrite H. eexists. reflexivity.
Qed.

Lemma gemini_http_post_other url data api_key w :
  gemini_transient (outcome (net w (calls w))) = false ->
  exists r,
    Gemini.http_post url data api_key w = (r, called w, [EvPost url data]) /\
    (forall v, outcome (net w (calls w)) = NetBody v -> r = Ret v) /\
    (forall m, r <> Raise (TransientError m)).
Proof.
  unfold Gemini.http_post, called. unfold_m.
  destruct (outcome (net w (calls w))) as [v|code body|reason|m|cls]; simpl;
    try discriminate.
  - intros _. eexists. split; [reflexivity|].
    split; [intros v' H; now inversion H | discriminate].
  - intros H. apply orb_false_iff in H. destruct H as [H429 H500].
    rewrite H429, H500.
    destruct (code =? 401); eexists;
      (split; [reflexivity | split; [discriminate | discriminate]]).
  - intros _. eexists.
    split; [reflexivity | split; [discriminate | discriminate]].
Qed.

(** The first request is refused as a bad request; the service is
    overloaded for three requests in a row. *)
Definition bad_request_world : world :=
  World 0 0 (scripted [Reply 1 (NetHTTPError 400 "unavailable model")]) 1.

Definition overloaded_world : world :=
  World 0 0
    (scripted [Reply 1 (NetHTTPError 429 "slow down");
               Reply 2 (NetHTTPError 503 "invalid upstream");
               Reply 120 (NetTimeout "timed out")]) 1.

(** [query_with_retry] retries on the class of the failure, not on its
    text: when the first request does not fail with HTTP 429, HTTP 5xx,
    a connection error or a timeout, the call is over after that single
    request, with no sleep; a body is returned as it is, and an error is
    raised at once. *)
Theorem gemini_first_answer_final payload api_key w :
  gemini_transient (outcome (net w (calls w))) = false ->
  exists r,
    Gemini.query_with_retry payload api_key w
    = (r, called w, [EvPost Gemini.GRSAI_CHAT_URL payload]) /\
    (forall v, outcome (net w (calls w)) = NetBody v -> r = Ret v) /\
    (forall m, r <> Raise (TransientError m)).
Proof.
  intros H.
  destruct (gemini_http_post_other Gemini.GRSAI_CHAT_URL payload api_key w H)
    as [r [Hp [Hbody Hnt]]].
  exists r. split; [|split; assumption].
  unfold Gemini.query_with_retry.
  rewrite (range_cons 1) by (unfold Gemini.MAX_RETRIES; lia).
  simpl. unfold Gemini.iteration. unfold_m. rewrite Hp.
  destruct r as [v|e]; [reflexivity|].
  destruct e as [m|m|m|c]; try reflexivity.
  exfalso. now apply (Hnt m).
Qed.

Lemma gemini_first_answer_final_witness :
  exists r,
    Gemini.query_with_retry sample_payload "key" bad_request_world
    = (r, called bad_request_world,
       [EvPost Gemini.GRSAI_CHAT_URL sample_payload]) /\
    (forall v, outcome (net bad_request_world (calls bad_request_world))
               = NetBody v -> r = Ret v) /\
    (forall m, r <> Raise (TransientError m)).
Proof.
  apply (gemini_first_answer_final sample_payload "key" bad_request_world).
  reflexivity.
Defined.

Lemma gemini_iteration_transient payload api_key attempt delay w :
  gemini_transient (outcome (net w (calls w))) = true ->
  exists m,
    Gemini.iteration payload api_key attempt delay w =
    if attempt <? Gemini.MAX_RETRIES then
      (Ret (Gemini.Next (Z.min (delay * 2) 30) (TransientError m)),
       slept delay (called w),
       [EvPost Gemini.GRSAI_CHAT_URL payload;
        EvPrint (WillRetry attempt delay m); EvSleep BackoffSleep delay])
    else
      (Ret (Gemini.Next delay (TransientError m)), called w,
       [EvPost Gemini.GRSAI_CHAT_URL payload]).
Proof.
  intros H.
  destruct (gemini_http_post_transient Gemini.GRSAI_CHAT_URL payload api_key
              w H) as [m Hp].
  exists m. unfold Gemini.iteration. unfold_m. rewrite Hp.
  destruct (attempt <? Gemini.MAX_RETRIES); reflexivity.
Qed.

Lemma gemini_for_attempts_cons payload api_key attempt rest delay last_error w :
  Gemini.for_attempts payload api_key (attempt :: rest) delay last_error w =
  match Gemini.iteration payload api_key attempt delay w with
  | (Ret (Gemini.Done response), w1, t1) => (Ret response, w1, t1)
  | (Ret (Gemini.Next delay' e), w1, t1) =>
      match Gemini.for_attempts payload api_key rest delay' e w1 with
      | (r, w2, t2) => (r, w2, t1 ++ t2)
      end
  | (Raise e, w1, t1) => (Raise e, w1, t1)
  end.
Proof.
  simpl. unfold bind at 1.
  destruct (Gemini.iteration payload api_key attempt delay w)
    as [[[[v|d' e]|e] w1] t1]; simpl; unfold ret; now tidy_trace.
Qed.

(** When three requests in a row fail with a transient error,
    [query_with_retry] sends exactly these three requests, sleeps 4 and
    then 8 seconds between them, sleeps nothing after the third and
    raises the third error. *)
Theorem gemini_gives_up_after_three payload api_key w :
  gemini_transient (outcome (net w (calls w))) = true ->
  gemini_transient (outcome (net w (S (calls w)))) = true ->
  gemini_transient (outcome (net w (S (S (calls w))))) = true ->
  exists m1 m2 m3,
    Gemini.query_with_retry payload api_key w
    = (Raise (TransientError m3),
       called (slept 8 (called (slept 4 (called w)))),
       [EvPost Gemini.GRSAI_CHAT_URL payload;
        EvPrint (WillRetry 1 4 m1); EvSleep BackoffSleep 4;
        EvPost Gemini.GRSAI_CHAT_URL payload;
        EvPrint (WillRetry 2 8 m2); EvSleep BackoffSleep 8;
        EvPost Gemini.GRSAI_CHAT_URL payload]).
Proof.
  intros H1 H2 H3.
  destruct (gemini_iteration_transient payload api_key 1 4 w H1)
    as [m1 Hi1].
  destruct (gemini_iteration_transient payload api_key 2 8
              (slept 4 (called w)) H2) as [m2 Hi2].
  destruct (gemini_iteration_transient payload api_key 3 16
              (slept 8 (called (slept 4 (called w)))) H3) as [m3 Hi3].
  exists m1, m2, m3.
  unfold Gemini.query_with_retry.
  change (range 1 (Gemini.MAX_RETRIES + 1)) with [1; 2; 3].
  change Gemini.RETRY_DELAY with 4.
  rewrite gemini_for_attempts_cons, Hi1.
  change (1 <? Gemini.MAX_RETRIES) with true. cbv iota beta.
  change (Z.min (4 * 2) 30) with 8.
  rewrite gemini_for_attempts_cons, Hi2.
  change (2 <? Gemini.MAX_RETRIES) with true. cbv iota beta.
  change (Z.min (8 * 2) 30) with 16.
  rewrite gemini_for_attempts_cons, Hi3.
  reflexivity.
Qed.

Lemma gemini_gives_up_after_three_witness :
  exists m1 m2 m3,
    Gemini.query_with_retry sample_payload "key" overloaded_world
    = (Raise (TransientError m3),
       called (slept 8 (called (slept 4 (called overloaded_world)))),
       [EvPost Gemini.GRSAI_CHAT_URL sample_payload;
        EvPrint (WillRetry 1 4 m1); EvSleep BackoffSleep 4;
        EvPost Gemini.GRSAI_CHAT_URL sample_payload;
        EvPrint (WillRetry 2 8 m2); EvSleep BackoffSleep 8;
        EvPost Gemini.GRSAI_CHAT_URL sample_payload]).
Proof.
  apply (gemini_gives_up_after_three sample_payload "key" overloaded_world);
    reflexivity.
Defined.

(** ** The API key *)

(** [get_api_key(provided_key)], the same in every script; [environ] is
    [os.environ.get]. *)
Definition get_api_key (provided_key : option string)
    (environ : string -> option string) : option string :=
  match provided_key with
  | Some key => if PyStr.nonempty key then Some key
                else environ "GRSAI_API_KEY"
  | None => environ "GRSAI_API_KEY"
  end.

(** Truthiness of an optional string: [bool(x)] for [x : str | None]. *)
Definition given (x : option string) : bool :=
  match x with
  | Some s => PyStr.nonempty s
  | None => false
  end.

(** The scripts stop with "No API key provided" ([not api_key]) exactly
    when neither the flag nor the environment variable holds a non-empty
    key; a non-empty flag wins over the variable, and an empty flag is
    treated as no flag. *)
Theorem api_key_choice provided_key environ :
  (given (get_api_key provided_key environ) = false <->
   given provided_key = false /\ given (environ "GRSAI_API_KEY") = false)
  /\ (given provided_key = true ->
      get_api_key provided_key environ = provided_key)
  /\ (given provided_key = false ->
      get_api_key provided_key environ = environ "GRSAI_API_KEY").
Proof.
  unfold get_api_key, given.
  destruct provided_key as [key|]; simpl.
  - destruct key as [|c key]; simpl.
    + split; [|split]; [|discriminate|reflexivity].
      split; [intros H; split; [reflexivity | exact H] | intros [_ H]; exact H].
    + split; [|split]; [|reflexivity|discriminate].
      split; [discriminate | intros [H _]; discriminate].
  - split; [|split]; [|discriminate|reflexivity].
    split; [intros H; split; [reflexivity | exact H] | intros [_ H]; exact H].
Qed.

(** ** The identifier of the task *)

(** The service accepts the task under an empty identifier. *)
Definition empty_id_world : world :=
  World 0 0
    (scripted [Reply 1 (NetBody (JObj [("code", JInt 0);
                 ("data", JObj [("id", JStr "")])]))]) 1.

(** The service accepts the task and says nothing else. *)
Definition no_id_world : world :=
  World 0 0 (scripted [Reply 1 (NetBody (JObj [("code", JInt 0)]))]) 1.

(** On an answer with code 0: [submit_task] of [veo3-1] returns the [id]
    of [data] when it is truthy and raises a [RuntimeError] otherwise (a
    missing [data], a missing, null or empty [id]); [submit_task] of
    [veo3.1] has no such test: it returns the [id] whatever it is, an
    empty string included, and raises [KeyError] when [data] or [id] is
    missing, which its [try_generate] does not catch. *)
Theorem submit_task_identifier py_repr payload api_key w v code :
  outcome (net w (calls w)) = NetBody v ->
  Dict.get v "code" JNull = Ret code ->
  Py.eq_zero code = true ->
  (forall data id,
     Dict.get v "data" (JObj []) = Ret data ->
     Dict.get data "id" JNull = Ret id ->
     Veo.submit_task py_repr payload api_key w
     = (if Py.truthy id then Ret id
        else Raise (RuntimeError
                      ("No task ID in response: " +:+ py_str py_repr v)),
        called w, [EvPost Video.GRSAI_VIDEO_URL payload]))
  /\
  (forall data id,
     Dict.getitem v "data" = Ret data ->
     Dict.getitem data "id" = Ret id ->
     Legacy.submit_task py_repr payload api_key w
     = (Ret id, called w, [EvPost Video.GRSAI_VIDEO_URL payload]))
  /\
  (Dict.getitem v "data" = Raise (OtherError "KeyError") ->
   Legacy.submit_task py_repr payload api_key w
   = (Raise (OtherError "KeyError"), called w,
      [EvPost Video.GRSAI_VIDEO_URL payload])).
Proof.
  intros Ho Hc Hz. split; [|split].
  - intros data id Hd Hi.
    unfold Veo.submit_task, Veo.http_post, called. unfold_m.
    rewrite Ho. simpl. rewrite Hc. simpl. rewrite Hz. simpl.
    rewrite Hd. simpl. rewrite Hi. simpl.
    destruct (Py.truthy id); reflexivity.
  - intros data id Hd Hi.
    unfold Legacy.submit_task, Legacy.http_post, called. unfold_m.
    rewrite Ho. simpl. rewrite Hc. simpl. rewrite Hz. simpl.
    rewrite Hd. simpl. rewrite Hi. reflexivity.
  - intros Hd.
    unfold Legacy.submit_task, Legacy.http_post, called. unfold_m.
    rewrite Ho. simpl. rewrite Hc. simpl. rewrite Hz. simpl.
    rewrite Hd. reflexivity.
Qed.

Lemma submit_task_identifier_witness :
  fst (fst (Veo.submit_task sample_repr sample_payload "key" empty_id_world))
  = Raise (RuntimeError "No task ID in response: <object>")
  /\
  fst (fst (Legacy.submit_task sample_repr sample_payload "key"
              empty_id_world))
  = Ret (JStr "")
  /\
  fst (fst (Legacy.submit_task sample_repr sample_payload "key" no_id_world))
  = Raise (OtherError "KeyError").
Proof.
  destruct (submit_task_identifier sample_repr sample_payload "key"
              empty_id_world
              (JObj [("code", JInt 0); ("data", JObj [("id", JStr "")])])
              (JInt 0) eq_refl eq_refl eq_refl) as [Hv [Hl _]].
  destruct (submit_task_identifier sample_repr sample_payload "key"
              no_id_world (JObj [("code", JInt 0)])
              (JInt 0) eq_refl eq_refl eq_refl) as [_ [_ Hk]].
  rewrite (Hv (JObj [("id", JStr "")]) (JStr "") eq_refl eq_refl).
  rewrite (Hl (JObj [("id", JStr "")]) (JStr "") eq_refl eq_refl).
  rewrite (Hk eq_refl).
  repeat split.
Defined.

(** ** The address of the result *)

Module Result.

(** [v[0]]: the first item of a list, the first character of a string;
    the keys of a dict from JSON are strings, so [0] is not one of
    them. *)
Definition first_item (v : json) : res json :=
  match v with
  | JArr (x :: _) => Ret x
  | JArr [] => Raise (OtherError "IndexError")
  | JStr (String c _) => Ret (JStr (String c EmptyString))
  | JStr EmptyString => Raise (OtherError "IndexError")
  | JObj _ => Raise (OtherError "KeyError")
  | _ => Raise (OtherError "TypeError")
  end.

(** Lines 233-240 of [main] of [veo3-1]: the top-level [url], else the
    [url] of the first of [results]; [None] is the way to
    [sys.exit(1)]. *)
Definition video_url (result : json) : res (option json) :=
  match Dict.get result "url" JNull with
  | Raise e => Raise e
  | Ret url =>
      if Py.truthy url then Ret (Some url)
      else
        match Dict.get result "results" (JArr []) with
        | Raise e => Raise e
        | Ret nested =>
            if Py.truthy nested then
              match first_item nested with
              | Raise e => Raise e
              | Ret item =>
                  match Dict.get item "url" JNull with
                  | Raise e => Raise e
                  | Ret url' =>
                      if Py.truthy url' then Ret (Some url') else Ret None
                  end
              end
            else Ret None
        end
  end.

(** Line 181 of [main] of [veo3.1]: [result["results"][0]["url"]]. *)
Definition legacy_video_url (result : json) : res json :=
  match Dict.getitem result "results" with
  | Raise e => Raise e
  | Ret nested =>
      match first_item nested with
      | Raise e => Raise e
      | Ret item => Dict.getitem item "url"
      end
  end.

End Result.

(** A result in the format of the video endpoint: the address at top
    level. *)
Definition veo_result : json :=
  JObj [("status", JStr "succeeded"); ("progress", JInt 100);
        ("url", JStr "https://x/video.mp4"); ("credits_cost", JInt 5)].

(** A result in the format of the image endpoint: the address in
    [results]. *)
Definition nested_result : json :=
  JObj [("status", JStr "succeeded");
        ("results", JArr [JObj [("url", JStr "https://x/a.mp4")]])].

(** The address [main] of [veo3-1] goes on with is never falsy, and it is
    the top-level [url] of the result when that is truthy, whatever
    [results] holds. *)
Theorem video_url_choice result :
  (forall url, Result.video_url result = Ret (Some url) ->
     Py.truthy url = true /\
     (Dict.get result "url" JNull = Ret url \/
      exists nested item,
        Dict.get result "results" (JArr []) = Ret nested /\
        Result.first_item nested = Ret item /\
        Dict.get item "url" JNull = Ret url))
  /\
  (forall url, Dict.get result "url" JNull = Ret url -> Py.truthy url = true ->
     Result.video_url result = Ret (Some url)).
Proof.
  unfold Result.video_url. split.
  - intros url H.
    destruct (Dict.get result "url" JNull) as [u|e]; [|discriminate].
    destruct (Py.truthy u) eqn:Hu.
    { inversion H; subst. auto. }
    destruct (Dict.get result "results" (JArr [])) as [nested|e];
      [|discriminate].
    destruct (Py.truthy nested); [|discriminate].
    destruct (Result.first_item nested) as [item|e] eqn:Hi; [|discriminate].
    destruct (Dict.get item "url" JNull) as [u'|e] eqn:Hu'; [|discriminate].
    destruct (Py.truthy u') eqn:Ht; [|discriminate].
    inversion H; subst. split; [exact Ht|].
    right. exists nested, item. auto.
  - intros url Hget Ht. now rewrite Hget, Ht.
Qed.

(** The two copies read the result differently: on a result that holds
    its address at top level only, [veo3.1] stops on a [KeyError] where
    [veo3-1] finds the address; and whenever [veo3.1] finds a truthy
    address in a result without a truthy top-level [url], [veo3-1] finds
    the same one. *)
Theorem video_url_across_copies result items :
  result = JObj items ->
  (Py.assoc "results" items = None ->
   Result.legacy_video_url result = Raise (OtherError "KeyError"))
  /\
  (forall top url,
     Dict.get result "url" JNull = Ret top -> Py.truthy top = false ->
     Result.legacy_video_url result = Ret url -> Py.truthy url = true ->
     Result.video_url result = Ret (Some url)).
Proof.
  intros ->. split.
  - intros H. unfold Result.legacy_video_url. simpl. now rewrite H.
  - intros top url Htop Hfalsy Hleg Ht.
    unfold Result.video_url. rewrite Htop, Hfalsy.
    unfold Result.legacy_video_url in Hleg. simpl in *.
    destruct (Py.assoc "results" items) as [nested|]; [|discriminate].
    destruct (Result.first_item nested) as [item|e] eqn:Hi; [|discriminate].
    assert (Hn : Py.truthy nested = true).
    { destruct nested as [| | | |s|l|m]; simpl in Hi; try discriminate.
      - destruct s; [discriminate | reflexivity].
      - destruct l; [discriminate | reflexivity]. }
    rewrite Hn.
    assert (Hu : Dict.get item "url" JNull = Ret url).
    { destruct item; simpl in *; try discriminate.
      destruct (Py.assoc "url" items0); [congruence | discriminate]. }
    now rewrite Hu, Ht.
Qed.

Lemma video_url_across_copies_witness :
  Result.legacy_video_url veo_result = Raise (OtherError "KeyError")
  /\ Result.video_url veo_result = Ret (Some (JStr "https://x/video.mp4"))
  /\ Result.video_url nested_result = Ret (Some (JStr "https://x/a.mp4")).
Proof.
  split; [|split].
  - destruct (video_url_across_copies veo_result _ eq_refl) as [H _].
    apply H. reflexivity.
  - reflexivity.
  - destruct (video_url_across_copies nested_result _ eq_refl) as [_ H].
    apply (H JNull); reflexivity.
Defined.

(** ** The download *)

Module DownloadFacts.

Import stdpp.base stdpp.gmap stdpp.strings.
Import Download.

(** The loop ends on the first read that fails, and otherwise returns
    the chunks it was given followed by what the reads returned. *)
Lemma read_loop_chunks total body : forall downloaded chunks,
  match fst (read_loop total body downloaded chunks) with
  | inr chunks' =>
      first_error body = None /\
      concat chunks' = concat chunks ++ delivered body
  | inl e => first_error body = Some e
  end.
Proof.
  induction body as [|[data|e] rest IH]; intros downloaded chunks; simpl.
  - split; [reflexivity | now rewrite app_nil_r].
  - destruct data as [|b data].
    + split; [reflexivity | now rewrite app_nil_r].
    + specialize (IH (downloaded + Z.of_nat (length (b :: data)))%Z
                     (chunks ++ [b :: data])).
      destruct (read_loop total rest _ _) as [[e'|chunks'] printed];
        simpl in *.
      * exact IH.
      * destruct IH as [Hc Hd]. split; [exact Hc|].
        rewrite Hd, concat_app. simpl. rewrite app_nil_r.
        now rewrite <- app_assoc.
  - reflexivity.
Qed.


(** Five bytes in two chunks; a transfer that breaks after the first
    chunk; and one that ends after three bytes. *)
Definition two_chunks : list read_outcome :=
  [Chunk [Byte.x01; Byte.x02; Byte.x03]; Chunk [Byte.x04; Byte.x05]].

Definition broken_transfer : list read_outcome :=
  [Chunk [Byte.x01; Byte.x02; Byte.x03]; ReadError IoTimeout].

Definition short_transfer : list read_outcome :=
  [Chunk [Byte.x01; Byte.x02; Byte.x03]; Chunk []].



End DownloadFacts.

Module DownloadProgress.

Import Download.

(** A progress line within bounds: a percentage from 0 to 100. *)
Definition sound_line (l : out) : Prop :=
  match l with
  | Downloading pct kb => (0 <= pct <= 100)%Z /\ (0 <= kb)%Z
  | Blank => True
  end.

(** Number of bytes the reads return before the stream ends, as an
    [int]. *)
Definition size (body : list read_outcome) : Z :=
  Z.of_nat (List.length (delivered body)).

Lemma read_loop_end total body downloaded chunks :
  delivered body = [] -> first_error body = None ->
  read_loop total body downloaded chunks = (inr chunks, []).
Proof.
  destruct body as [|[[|b data]|e] rest]; simpl; intros Hd Hc;
    try reflexivity; discriminate.
Qed.

Lemma read_loop_progress total body : forall downloaded chunks,
  (0 <= downloaded)%Z -> (0 < total)%Z ->
  (downloaded + size body <= total)%Z ->
  Forall sound_line (snd (read_loop total body downloaded chunks)) /\
  (0 < size body -> first_error body = None ->
   exists printed,
     snd (read_loop total body downloaded chunks)
     = printed ++ [Downloading ((downloaded + size body) * 100 / total)
                     ((downloaded + size body) / 1024)])%Z.
Proof.
  unfold size.
  induction body as [|[data|e] rest IH]; intros downloaded chunks Hd Ht Hsum.
  - simpl in *. split; [constructor | lia].
  - destruct data as [|b data].
    + simpl in *. split; [constructor | lia].
    + change (delivered (Chunk (b :: data) :: rest))
        with ((b :: data) ++ delivered rest) in *.
      rewrite length_app in *.
      set (n := Z.of_nat (List.length (b :: data))) in *.
      assert (Hn : (0 < n)%Z) by (unfold n; simpl; lia).
      assert (Hnz : nonzero total = true).
      { unfold nonzero. apply negb_true_iff, Z.eqb_neq. lia. }
      assert (Hsum' : (downloaded + n
                       + Z.of_nat (List.length (delivered rest))
                       <= total)%Z)
        by (unfold n; lia).
      change (read_loop total (Chunk (b :: data) :: rest) downloaded chunks)
        with (match read_loop total rest (downloaded + n)
                      (chunks ++ [b :: data]) with
              | (r, printed) =>
                  (r, (if nonzero total
                       then [Downloading ((downloaded + n) * 100 / total)
                               ((downloaded + n) / 1024)]
                       else []) ++ printed)
              end).
      rewrite Hnz.
      destruct (IH (downloaded + n)%Z (chunks ++ [b :: data])
                   ltac:(lia) Ht Hsum') as [Hall Hlast].
      destruct (read_loop total rest (downloaded + n) (chunks ++ [b :: data]))
        as [r printed] eqn:Hrl.
      simpl in Hall, Hlast. simpl snd. split.
      * constructor; [|exact Hall].
        simpl. split; [split|].
        -- apply Z.div_pos; lia.
        -- apply Z.div_le_upper_bound; lia.
        -- apply Z.div_pos; lia.
      * intros _ Hc. change (first_error rest = None) in Hc.
        destruct (delivered rest) as [|b' more] eqn:Hrest.
        -- rewrite (read_loop_end _ _ _ _ Hrest Hc) in Hrl.
           inversion Hrl; subst printed.
           exists []. simpl app.
           repeat f_equal; unfold n; cbn [List.length];
             rewrite ?Nat.add_0_r; try reflexivity; lia.
        -- destruct Hlast as [pr Hpr]; [simpl; lia | exact Hc |].
           exists (Downloading ((downloaded + n) * 100 / total)
                     ((downloaded + n) / 1024) :: pr).
           rewrite Hpr. simpl app. do 3 f_equal.
           replace (downloaded + n
                    + Z.of_nat (S (List.length more)))%Z
             with (downloaded
                   + Z.of_nat (S (List.length data
                                  + S (List.length more))))%Z
             by (unfold n; cbn [List.length]; lia).
           reflexivity.
  - simpl. split; [constructor | discriminate].
Qed.

(** When the reads of [download_video] return no more bytes than the
    server has announced, every percentage printed lies between 0 and
    100, whether the transfer ends, breaks or stops short; when the
    download returns, the last progress line shows the bytes that have
    arrived and is followed by the closing empty line; and the
    percentage of that line is 100 exactly when all the bytes announced
    have arrived. *)
Theorem download_progress_sound header body output_path fs n :
  header = Length n -> (0 < n)%Z -> (size body <= n)%Z ->
  Forall sound_line (snd (download_video (Opened header body) output_path fs))
  /\
  (fst (fst (download_video (Opened header body) output_path fs)) = Ret tt ->
   (0 < size body)%Z ->
   exists printed,
     snd (download_video (Opened header body) output_path fs)
     = printed ++ [Downloading (size body * 100 / n) (size body / 1024);
                   Blank])
  /\
  ((size body * 100 / n = 100)%Z <-> size body = n).
Proof.
  intros -> Hn Hsize. unfold download_video.
  destruct (read_loop_progress n body 0 [] ltac:(lia) Hn ltac:(lia))
    as [Hall Hlast].
  pose proof (DownloadFacts.read_loop_chunks n body 0%Z []) as Hx.
  destruct (read_loop n body 0 []) as [[e|chunks] printed] eqn:Hrl;
    simpl in *.
  - split; [exact Hall|]. split; [discriminate|].
    split.
    + intros H. apply Z.le_antisymm; [exact Hsize|].
      destruct (Z.le_gt_cases n (size body)) as [Hle|Hgt]; [exact Hle|].
      assert (size body * 100 / n < 100)%Z
        by (apply Z.div_lt_upper_bound; lia).
      lia.
    + intros ->. now rewrite (Z.mul_comm n 100), Z.div_mul by lia.
  - destruct Hx as [Hc _]. split.
    + apply Forall_app. split; [exact Hall | repeat constructor].
    + split.
      * intros _ Hpos. destruct (Hlast Hpos Hc) as [pr Hpr].
        exists pr. rewrite Hpr. now rewrite <- app_assoc.
      * split.
        -- intros H. apply Z.le_antisymm; [exact Hsize|].
           destruct (Z.le_gt_cases n (size body)) as [Hle|Hgt]; [exact Hle|].
           assert (size body * 100 / n < 100)%Z
             by (apply Z.div_lt_upper_bound; lia).
           lia.
        -- intros ->. now rewrite (Z.mul_comm n 100), Z.div_mul by lia.
Qed.

Lemma download_progress_sound_witness :
  Forall sound_line
    (snd (download_video (Opened (Length 5) DownloadFacts.broken_transfer)
            "out.mp4" (stdpp.base.empty)))
  /\
  exists printed,
    snd (download_video (Opened (Length 5) DownloadFacts.short_transfer)
           "out.mp4" (stdpp.base.empty))
    = printed ++ [Downloading (3 * 100 / 5) (3 / 1024); Blank].
Proof.
  split.
  - destruct (download_progress_sound (Length 5) DownloadFacts.broken_transfer
                "out.mp4" (stdpp.base.empty) 5 eq_refl)
      as [H _]; [lia | unfold size; simpl; lia |].
    exact H.
  - destruct (download_progress_sound (Length 5) DownloadFacts.short_transfer
                "out.mp4" (stdpp.base.empty) 5 eq_refl)
      as [_ [H _]]; [lia | unfold size; simpl; lia |].
    apply H; [reflexivity | unfold size; simpl; lia].
Defined.

End DownloadProgress.

(** ** Answers of the result endpoint that are not as expected *)

Lemma deadline_ahead w : (now w <? now w + ticks w 600) = true.
Proof. apply Z.ltb_lt. unfold ticks. lia. Qed.

(** A status answer with code 0 and nothing else. *)
Definition bare_answer_world : world :=
  World 0 0 (scripted [Reply 1 (NetBody (JObj [("code", JInt 0)]))]) 1.

(** An answer with code 0 that has no [data]: [poll_result] of [veo3-1]
    reads it as an empty payload, prints the status [None] at 0% and,
    since that is no terminal status, sleeps and asks again;
    [poll_result] of [veo3.1] stops on [KeyError] after that one
    request. *)
Theorem answer_without_data py_repr task_id api_key w items code :
  outcome (net w (calls w)) = NetBody (JObj items) ->
  Py.assoc "code" items = Some code ->
  Py.eq_zero code = true ->
  Py.assoc "data" items = None ->
  (exists r w2 t2,
     Veo.poll_result py_repr task_id api_key w
     = (r, w2,
        [EvPost Video.GRSAI_RESULT_URL (JObj [("id", task_id)]);
         EvPrint (Progress (JInt 0) JNull);
         EvSleep PollSleep 5] ++ t2))
  /\
  Legacy.poll_result py_repr task_id api_key w
  = (Raise (OtherError "KeyError"), called w,
     [EvPost Video.GRSAI_RESULT_URL (JObj [("id", task_id)])]).
Proof.
  intros Ho Hc Hz Hd. split.
  - unfold Veo.poll_result. unfold_m. simpl.
    rewrite while_before_step.
    change Veo.POLL_TIMEOUT with 600. rewrite deadline_ahead.
    assert (Hp : Veo.poll_once py_repr task_id api_key w
                 = (Ret None, slept 5 (called w),
                    [EvPost Video.GRSAI_RESULT_URL (JObj [("id", task_id)]);
                     EvPrint (Progress (JInt 0) JNull);
                     EvSleep PollSleep 5])).
    { unfold Veo.poll_once, Veo.http_post, slept, called. unfold_m.
      rewrite Ho. simpl. rewrite Hc. simpl. rewrite Hz. simpl.
      rewrite Hd. reflexivity. }
    rewrite Hp.
    destruct (while_before _ _ _ _ (slept 5 (called w))) as [[r w2] t2].
    exists r, w2, t2. reflexivity.
  - unfold Legacy.poll_result. unfold_m. simpl.
    rewrite while_before_step.
    change Legacy.timeout with 600. rewrite deadline_ahead.
    unfold Legacy.poll_once, Legacy.http_post, called. unfold_m.
    rewrite Ho. simpl. rewrite Hc. simpl. rewrite Hz. simpl.
    rewrite Hd. reflexivity.
Qed.

Lemma answer_without_data_witness :
  Legacy.poll_result sample_repr (JStr "T1") "key" bare_answer_world
  = (Raise (OtherError "KeyError"), called bare_answer_world,
     [EvPost Video.GRSAI_RESULT_URL (JObj [("id", JStr "T1")])]).
Proof.
  apply (answer_without_data sample_repr (JStr "T1") "key" bare_answer_world
           [("code", JInt 0)] (JInt 0)); reflexivity.
Defined.

(** The result endpoint does not know the task. *)
Definition unknown_task_world : world :=
  World 0 0
    (scripted [Reply 1 (NetBody (JObj [("code", JInt (-1));
                 ("msg", JStr "Task does NOT exist")]))]) 1.

(** A status answer with a code other than 0 ends [poll_result] of
    [veo3-1] at once with the [RuntimeError] "Result API error: " followed
    by the [msg] of the answer; if that [msg] holds a permanent keyword,
    so does the message raised, hence [try_generate] will not retry. *)
Theorem status_error_raised py_repr task_id api_key w v code msg :
  outcome (net w (calls w)) = NetBody v ->
  Dict.get v "code" JNull = Ret code ->
  Py.eq_zero code = false ->
  Dict.get v "msg" JNull = Ret msg ->
  Veo.poll_result py_repr task_id api_key w
  = (Raise (RuntimeError ("Result API error: " +:+ py_str py_repr msg)),
     called w,
     [EvPost Video.GRSAI_RESULT_URL (JObj [("id", task_id)])])
  /\
  (Video.is_permanent_error (py_str py_repr msg) = true ->
   Video.is_permanent_error ("Result API error: " +:+ py_str py_repr msg)
   = true).
Proof.
  intros Ho Hc Hz Hm. split.
  - unfold Veo.poll_result. unfold_m. simpl.
    rewrite while_before_step.
    change Veo.POLL_TIMEOUT with 600. rewrite deadline_ahead.
    unfold Veo.poll_once, Veo.http_post, called. unfold_m.
    rewrite Ho. simpl. rewrite Hc. simpl. rewrite Hz. simpl.
    rewrite Hm. reflexivity.
  - intros Hp.
    rewrite <- (append_nil_r (py_str py_repr msg)).
    now apply is_permanent_error_app.
Qed.

Lemma status_error_raised_witness :
  Veo.poll_result sample_repr (JStr "T1") "key" unknown_task_world
  = (Raise (RuntimeError "Result API error: Task does NOT exist"),
     called unknown_task_world,
     [EvPost Video.GRSAI_RESULT_URL (JObj [("id", JStr "T1")])])
  /\ Video.is_permanent_error "Result API error: Task does NOT exist" = true.
Proof.
  destruct (status_error_raised sample_repr (JStr "T1") "key"
              unknown_task_world
              (JObj [("code", JInt (-1)); ("msg", JStr "Task does NOT exist")])
              (JInt (-1)) (JStr "Task does NOT exist")
              eq_refl eq_refl eq_refl eq_refl) as [H1 H2].
  split; [exact H1 | apply H2; reflexivity].
Defined.

(** ** The text of a chat answer *)

Module Answer.

(** ["choices" in v]: a key of a dict, an item of a list, a substring of
    a string; nothing else can be searched. *)
Definition has_choices (v : json) : res bool :=
  match v with
  | JObj items =>
      Ret (match Py.assoc "choices" items with Some _ => true | None => false end)
  | JArr items => Ret (existsb (fun x => Py.eq_str x "choices") items)
  | JStr s => Ret (PyStr.contains "choices" s)
  | _ => Raise (OtherError "TypeError")
  end.

(** [text is None] *)
Definition is_none (v : json) : bool :=
  match v with JNull => true | _ => false end.

(** Lines 166-175 of [main] of the plugin's chat client: the [content]
    of the [message] of the first of [choices]; [None] is the way to
    [sys.exit(1)]. *)
Definition response_text (response : json) : res (option json) :=
  match Dict.get response "choices" JNull with
  | Raise e => Raise e
  | Ret choices =>
      if negb (Py.truthy choices) then Ret None
      else
        match Result.first_item choices with
        | Raise e => Raise e
        | Ret choice =>
            match Dict.get choice "message" (JObj []) with
            | Raise e => Raise e
            | Ret message =>
                match Dict.get message "content" JNull with
                | Raise e => Raise e
                | Ret text => if is_none text then Ret None else Ret (Some text)
                end
            end
        end
  end.

(** Lines 109-113 of [main] of the first chat client:
    [response["choices"][0]["message"]["content"]] behind the test
    ["choices" not in response or not response["choices"]]. *)
Definition legacy_response_text (response : json) : res (option json) :=
  match has_choices response with
  | Raise e => Raise e
  | Ret false => Ret None
  | Ret true =>
      match Dict.getitem response "choices" with
      | Raise e => Raise e
      | Ret choices =>
          if negb (Py.truthy choices) then Ret None
          else
            match Result.first_item choices with
            | Raise e => Raise e
            | Ret choice =>
                match Dict.getitem choice "message" with
                | Raise e => Raise e
                | Ret message =>
                    match Dict.getitem message "content" with
                    | Raise e => Raise e
                    | Ret text => Ret (Some text)
                    end
                end
            end
      end
  end.

End Answer.

Lemma getitem_get v k x default :
  Dict.getitem v k = Ret x -> Dict.get v k default = Ret x.
Proof.
  destruct v; simpl; try discriminate.
  destruct (Py.assoc k items); [|discriminate]. intros H; exact H.
Qed.

(** An answer in the format of the chat endpoint. *)
Definition chat_answer : json :=
  JObj [("choices",
         JArr [JObj [("message",
                      JObj [("role", JStr "assistant");
                            ("content", JStr "Hello")])]])].

(** A choice that holds no message. *)
Definition empty_choice_answer : json :=
  JObj [("choices", JArr [JObj [("finish_reason", JStr "stop")]])].

(** The text the plugin's chat client prints is never [None]; whatever
    text other than [None] the first chat client reads from an answer,
    the plugin's client reads the same one; and a first choice that is a
    dict without [message] makes the plugin's client leave with its own
    error message where the first client stops on a [KeyError]. *)
Theorem response_text_across_clients response :
  (forall text, Answer.response_text response = Ret (Some text) ->
     Answer.is_none text = false)
  /\
  (forall text, Answer.legacy_response_text response = Ret (Some text) ->
     Answer.is_none text = false ->
     Answer.response_text response = Ret (Some text))
  /\
  (forall choices fields,
     Dict.getitem response "choices" = Ret choices ->
     Result.first_item choices = Ret (JObj fields) ->
     Py.assoc "message" fields = None ->
     Answer.response_text response = Ret None /\
     Answer.legacy_response_text response = Raise (OtherError "KeyError")).
Proof.
  split; [|split].
  - unfold Answer.response_text. intros text H.
    destruct (Dict.get response "choices" JNull) as [c|e]; [|discriminate].
    destruct (negb (Py.truthy c)); [discriminate|].
    destruct (Result.first_item c) as [ch|e]; [|discriminate].
    destruct (Dict.get ch "message" (JObj [])) as [m|e]; [|discriminate].
    destruct (Dict.get m "content" JNull) as [t|e]; [|discriminate].
    destruct (Answer.is_none t) eqn:Ht; [discriminate|].
    inversion H; subst. exact Ht.
  - unfold Answer.legacy_response_text, Answer.response_text.
    intros text H Hn.
    destruct (Answer.has_choices response) as [[|]|e]; try discriminate.
    destruct (Dict.getitem response "choices") as [c|e] eqn:Hc;
      [|discriminate].
    rewrite (getitem_get _ _ _ JNull Hc).
    destruct (negb (Py.truthy c)); [discriminate|].
    destruct (Result.first_item c) as [ch|e]; [|discriminate].
    destruct (Dict.getitem ch "message") as [m|e] eqn:Hm; [|discriminate].
    rewrite (getitem_get _ _ _ (JObj []) Hm).
    destruct (Dict.getitem m "content") as [t|e] eqn:Ht; [|discriminate].
    rewrite (getitem_get _ _ _ JNull Ht).
    inversion H; subst. now rewrite Hn.
  - intros choices fields Hc Hf Hm.
    assert (Ht : Py.truthy choices = true).
    { destruct choices as [| | | |s|items|items]; try discriminate.
      - destruct s; [discriminate | reflexivity].
      - destruct items; [discriminate | reflexivity]. }
    unfold Answer.legacy_response_text, Answer.response_text.
    rewrite (getitem_get _ _ _ JNull Hc), Hc, Ht, Hf. simpl.
    rewrite Hm. simpl. split; [reflexivity|].
    destruct response as [| | | | |items|items]; try discriminate.
    simpl in Hc |- *.
    destruct (Py.assoc "choices" items); [reflexivity | discriminate].
Qed.

(** ** The image type sent along with a question *)

Module Image.

(** [s.lstrip(".")] *)
Fixpoint lstrip_dots (s : string) : string :=
  match s with
  | EmptyString => EmptyString
  | String c s' => if Ascii.eqb c "."%char then lstrip_dots s' else s
  end.

Definition mime_map : list (string * string) :=
  [("jpg", "jpeg"); ("jpeg", "jpeg"); ("png", "png"); ("webp", "webp");
   ("gif", "gif")].

Fixpoint lookup (k : string) (m : list (string * string)) : option string :=
  match m with
  | [] => None
  | (k', v) :: rest => if String.eqb k k' then Some v else lookup k rest
  end.

(** [path.suffix.lower().lstrip(".")] for a given [path.suffix] *)
Definition ext (suffix : string) : string :=
  lstrip_dots (PyStr.lower suffix).

(** Lines 101-106 of [load_image_as_base64]: [None] is the way to
    [sys.exit(1)]. *)
Definition mime (suffix : string) : option string :=
  match lookup (ext suffix) mime_map with
  | Some m => if PyStr.nonempty m then Some m else None
  | None => None
  end.

(** Lines 75-76 of [main] of the first chat client. *)
Definition legacy_mime (suffix : string) : string :=
  match lookup (ext suffix) mime_map with
  | Some m => m
  | None => "jpeg"
  end.

End Image.

(** The image type does not depend on the letter case of the file
    suffix; where [load_image_as_base64] accepts a suffix, its type is
    one of [jpeg], [png], [webp] and [gif] and the first chat client
    chooses the same one; a suffix it refuses is sent as [jpeg] by the
    first chat client. *)
Theorem image_mime_across_clients suffix :
  Image.mime (PyStr.lower suffix) = Image.mime suffix
  /\
  match Image.mime suffix with
  | Some m =>
      In m ["jpeg"; "png"; "webp"; "gif"] /\ Image.legacy_mime suffix = m
  | None => Image.legacy_mime suffix = "jpeg"
  end.
Proof.
  split.
  - unfold Image.mime, Image.ext. now rewrite lower_idem.
  - unfold Image.mime, Image.legacy_mime, Image.mime_map, Image.lookup.
    destruct (String.eqb (Image.ext suffix) "jpg");
      [simpl; split; [auto | reflexivity]|].
    destruct (String.eqb (Image.ext suffix) "jpeg");
      [simpl; split; [auto | reflexivity]|].
    destruct (String.eqb (Image.ext suffix) "png");
      [simpl; split; [auto | reflexivity]|].
    destruct (String.eqb (Image.ext suffix) "webp");
      [simpl; split; [auto 6 | reflexivity]|].
    destruct (String.eqb (Image.ext suffix) "gif");
      [simpl; split; [auto 6 | reflexivity]|].
    reflexivity.
Qed.

Lemma response_text_across_clients_witness :
  Answer.response_text chat_answer = Ret (Some (JStr "Hello"))
  /\ Answer.response_text empty_choice_answer = Ret None
  /\ Answer.legacy_response_text empty_choice_answer
     = Raise (OtherError "KeyError").
Proof.
  split.
  - apply (proj1 (proj2 (response_text_across_clients chat_answer))
             (JStr "Hello")); reflexivity.
  - apply (proj2 (proj2 (response_text_across_clients empty_choice_answer))
             (JArr [JObj [("finish_reason", JStr "stop")]])
             [("finish_reason", JStr "stop")]); reflexivity.
Defined.
